(** * MES batch records and the QMIB connector: a shallow embedding

    The development follows the layout of the Python package [mes]:
    - [Models]             : [mes/models.py]
    - [BatchService]       : [mes/services/batch_service.py]
    - [QMIBClient]         : [mes/connectors/qmib_client.py]
    - [IntegrationService] : [mes/services/integration_service.py]

    Python values whose static type is [Any] (JSON bodies, template payloads)
    are values of [pyval]; exceptions are values of [exn]; every operation
    that can raise returns [exn + A]; operations on the database, on the
    network or on the clock thread their state explicitly. *)

From stdpp Require Import gmap strings list fin_maps option.
From Stdlib Require Import ZArith Lia.

Local Open Scope Z_scope.
Local Open Scope string_scope.
Local Open Scope list_scope.

(** ** Python-level values *)

(** [datetime.datetime], naive UTC, as microseconds since the epoch. *)
Definition datetime := Z.

(** Exceptions raised by the code or by the libraries it calls.  The first
    four are [httpx.HTTPError] and its subclasses. *)
Inductive exn :=
| ConnectError (msg : string)
| TimeoutException (msg : string)
| TransportError (msg : string)
| HTTPStatusError (status_code : Z)
| QMIBAuthenticationError (msg : string)
| KeyError (msg : string)
| ValueError (msg : string)
| ValidationError (fields : list string)
| JSONDecodeError
| TypeError (msg : string)
| AttributeError (msg : string)
| InvalidRequestError (msg : string)
| RetryError.

(** [isinstance(e, httpx.HTTPError)] *)
Definition isinstance_HTTPError (e : exn) : bool :=
  match e with
  | ConnectError _ | TimeoutException _ | TransportError _ | HTTPStatusError _ => true
  | _ => false
  end.

(** Values of static type [Any]: what [response.json()] decodes and what
    [model_dump()] produces.  A [float] is carried by its IEEE-754 bits; the
    code never computes with one. *)
#[local] Set Warnings "-register-all".
Inductive pyval :=
| PNone
| PBool (b : bool)
| PInt (n : Z)
| PFloat (bits : Z)
| PStr (s : string)
| PDatetime (t : datetime)
| PList (l : list pyval)
| PDict (d : gmap string pyval).

#[local] Set Warnings "register-all".

Definition is_mapping (v : pyval) : bool :=
  match v with PDict _ => true | _ => false end.

(** ** A state-and-exception monad

    [SE S A] is a computation over a state [S] that either raises or returns
    an [A]; the state reached is kept in both cases, as a Python exception
    does not undo the effects that preceded it. *)
Definition SE (S A : Type) : Type := S → (exn + A) * S.

Definition se_ret {S A} (a : A) : SE S A := λ s, (inr a, s).
Definition se_bind {S A B} (m : SE S A) (k : A → SE S B) : SE S B :=
  λ s, match m s with
       | (inl e, s') => (inl e, s')
       | (inr a, s') => k a s'
       end.
Definition raise {S A} (e : exn) : SE S A := λ s, (inl e, s).
Definition gets {S A} (f : S → A) : SE S A := λ s, (inr (f s), s).
Definition modify {S} (f : S → S) : SE S unit := λ s, (inr tt, f s).
(** A pure computation that may raise, run inside [SE]. *)
Definition lift_sum {S A} (r : exn + A) : SE S A := λ s, (r, s).

Declare Scope se_scope.
Delimit Scope se_scope with se.
Notation "x ←! m ; k" := (se_bind m (λ x, k))
  (at level 20, m at level 100, k at level 200, right associativity,
   format "x  ←!  m ; '/' k") : se_scope.
Notation "m ;;! k" := (se_bind m (λ _, k))
  (at level 100, k at level 200, right associativity) : se_scope.
Local Open Scope se_scope.

(** ** mes/models.py *)
Module Models.

Inductive BatchStatus := PLANNED | IN_PROGRESS | COMPLETED | HALTED | ABORTED.

#[global] Instance BatchStatus_eq_dec : EqDecision BatchStatus.
Proof. solve_decision. Defined.

(** The value of the [str] enumeration member. *)
Definition BatchStatus_value (s : BatchStatus) : string :=
  match s with
  | PLANNED => "planned"
  | IN_PROGRESS => "in_progress"
  | COMPLETED => "completed"
  | HALTED => "halted"
  | ABORTED => "aborted"
  end.

(** [str | float | int | bool | None] *)
Inductive scalar :=
| SStr (s : string)
| SFloat (bits : Z)
| SInt (n : Z)
| SBool (b : bool)
| SNone.

#[global] Instance scalar_eq_dec : EqDecision scalar.
Proof. solve_decision. Defined.

Record BatchRecord := {
  batch_id : string;
  recipe_id : string;
  status : BatchStatus;
  started_at : option datetime;
  completed_at : option datetime;
  data : gmap string scalar;
  equipment : list string;
}.

(** *** Validation by the model's constructor

    [BatchRecord(...)] validates the values it is given against the declared
    field types.  From values decoded from JSON: a [str] field accepts a
    string only; the union of scalars keeps a string, a float, an integer, a
    boolean or [None] as it is and rejects containers; [Dict[str, ...]]
    accepts a mapping and [List[str]] a list, each element validated in
    turn. *)
Definition validate_str (v : pyval) : option string :=
  match v with PStr s => Some s | _ => None end.

Definition validate_scalar (v : pyval) : option scalar :=
  match v with
  | PStr s => Some (SStr s)
  | PFloat f => Some (SFloat f)
  | PInt n => Some (SInt n)
  | PBool b => Some (SBool b)
  | PNone => Some SNone
  | PDatetime _ | PList _ | PDict _ => None
  end.

Definition validate_data (v : pyval) : option (gmap string scalar) :=
  match v with
  | PDict d =>
    if bool_decide (map_Forall (λ _ x, is_Some (validate_scalar x)) d)
    then Some (omap validate_scalar d)
    else None
  | _ => None
  end.

Definition validate_equipment (v : pyval) : option (list string) :=
  match v with
  | PList l => mapM validate_str l
  | _ => None
  end.

(** The names of the fields whose value was rejected. *)
Definition rejected {A} (field : string) (v : option A) : list string :=
  match v with Some _ => [] | None => [field] end.

(** [BatchRecord(batch_id=..., recipe_id=..., data=..., equipment=...)]:
    [status], [started_at] and [completed_at] take their defaults. *)
Definition BatchRecord_init (batch_id : string) (recipe_id data equipment : pyval)
    : exn + BatchRecord :=
  match validate_str recipe_id, validate_data data, validate_equipment equipment with
  | Some r, Some d, Some e =>
    inr {| batch_id := batch_id; recipe_id := r; status := PLANNED;
           started_at := None; completed_at := None;
           data := d; equipment := e |}
  | r, d, e =>
    inl (ValidationError (rejected "recipe_id" r ++ rejected "data" d ++ rejected "equipment" e))
  end.

(** *** [model_dump()] *)
Definition scalar_dump (x : scalar) : pyval :=
  match x with
  | SStr s => PStr s
  | SFloat f => PFloat f
  | SInt n => PInt n
  | SBool b => PBool b
  | SNone => PNone
  end.

Definition datetime_dump (t : option datetime) : pyval :=
  match t with Some t => PDatetime t | None => PNone end.

(** The enumeration member is a [str]; it is dumped as itself. *)
Definition BatchRecord_model_dump (r : BatchRecord) : gmap string pyval :=
  list_to_map [
    ("batch_id", PStr (batch_id r));
    ("recipe_id", PStr (recipe_id r));
    ("status", PStr (BatchStatus_value (status r)));
    ("started_at", datetime_dump (started_at r));
    ("completed_at", datetime_dump (completed_at r));
    ("data", PDict (scalar_dump <$> data r));
    ("equipment", PList (PStr <$> equipment r))
  ].

Record EventAcknowledgement := {
  event_id : string;
  acknowledged_by : string;
  comment : option string;
  acknowledged_at : datetime;
}.

Definition EventAcknowledgement_model_dump (a : EventAcknowledgement) : gmap string pyval :=
  list_to_map [
    ("event_id", PStr (event_id a));
    ("acknowledged_by", PStr (acknowledged_by a));
    ("comment", from_option PStr PNone (comment a));
    ("acknowledged_at", PDatetime (acknowledged_at a))
  ].

End Models.

(** ** mes/services/batch_service.py *)
Module BatchService.
Import Models.

(** An instance of the mapped class.  Attributes that were never assigned
    are [None] in Python, hence the options. *)
Record BatchRecordORM := {
  orm_batch_id : string;
  orm_recipe_id : option string;
  orm_status : option BatchStatus;
  orm_started_at : option datetime;
  orm_completed_at : option datetime;
  orm_data : option (gmap string scalar);
  orm_equipment : option (list string);
}.

(** [BatchRecordORM(batch_id=...)] *)
Definition BatchRecordORM_new (batch_id : string) : BatchRecordORM :=
  {| orm_batch_id := batch_id; orm_recipe_id := None; orm_status := None;
     orm_started_at := None; orm_completed_at := None;
     orm_data := None; orm_equipment := None |}.

(** Attribute assignments [orm.x = v]. *)
Definition set_recipe_id (v : option string) (o : BatchRecordORM) :=
  {| orm_batch_id := orm_batch_id o; orm_recipe_id := v; orm_status := orm_status o;
     orm_started_at := orm_started_at o; orm_completed_at := orm_completed_at o;
     orm_data := orm_data o; orm_equipment := orm_equipment o |}.
Definition set_status (v : option BatchStatus) (o : BatchRecordORM) :=
  {| orm_batch_id := orm_batch_id o; orm_recipe_id := orm_recipe_id o; orm_status := v;
     orm_started_at := orm_started_at o; orm_completed_at := orm_completed_at o;
     orm_data := orm_data o; orm_equipment := orm_equipment o |}.
Definition set_started_at (v : option datetime) (o : BatchRecordORM) :=
  {| orm_batch_id := orm_batch_id o; orm_recipe_id := orm_recipe_id o; orm_status := orm_status o;
     orm_started_at := v; orm_completed_at := orm_completed_at o;
     orm_data := orm_data o; orm_equipment := orm_equipment o |}.
Definition set_completed_at (v : option datetime) (o : BatchRecordORM) :=
  {| orm_batch_id := orm_batch_id o; orm_recipe_id := orm_recipe_id o; orm_status := orm_status o;
     orm_started_at := orm_started_at o; orm_completed_at := v;
     orm_data := orm_data o; orm_equipment := orm_equipment o |}.
Definition set_data (v : option (gmap string scalar)) (o : BatchRecordORM) :=
  {| orm_batch_id := orm_batch_id o; orm_recipe_id := orm_recipe_id o; orm_status := orm_status o;
     orm_started_at := orm_started_at o; orm_completed_at := orm_completed_at o;
     orm_data := v; orm_equipment := orm_equipment o |}.
Definition set_equipment (v : option (list string)) (o : BatchRecordORM) :=
  {| orm_batch_id := orm_batch_id o; orm_recipe_id := orm_recipe_id o; orm_status := orm_status o;
     orm_started_at := orm_started_at o; orm_completed_at := orm_completed_at o;
     orm_data := orm_data o; orm_equipment := v |}.

(** The table [batch_records], keyed by its primary key. *)
Abbreviation Table := (gmap string BatchRecordORM).

(** Every row is stored under its own [batch_id]. *)
Definition table_wf (t : Table) : Prop :=
  ∀ pk row, t !! pk = Some row → orm_batch_id row = pk.

(** *** The SQLAlchemy session

    A session holds the objects it has loaded or merged in its identity
    map, keyed by primary key; assignments to such an object are tracked
    there and reach the database only at [commit].  A local variable that
    refers to a persistent object is the key of that object; an object
    built by the constructor and not yet merged is a plain value. *)
Record Session := { database : Table; identity_map : Table }.

Inductive handle :=
| Attached (pk : string)
| Detached (o : BatchRecordORM).

(** [with self._session_factory() as session: ...]: what was not committed
    when the block is left, normally or by an exception, is dropped. *)
Definition with_session {A} (block : SE Session A) : SE Table A :=
  λ t, let '(r, s) := block {| database := t; identity_map := ∅ |} in
       (r, database s).

(** [session.get(BatchRecordORM, pk)] *)
Definition session_get (pk : string) : SE Session (option handle) :=
  λ s, match identity_map s !! pk with
       | Some _ => (inr (Some (Attached pk)), s)
       | None =>
         match database s !! pk with
         | Some row =>
           (inr (Some (Attached pk)),
            {| database := database s; identity_map := <[pk := row]> (identity_map s) |})
         | None => (inr None, s)
         end
       end.

(** [orm.attr = v], as the function [f] on the object's state. *)
Definition setattr (f : BatchRecordORM → BatchRecordORM) (h : handle) : SE Session handle :=
  match h with
  | Attached pk =>
    modify (λ s, {| database := database s; identity_map := alter f pk (identity_map s) |}) ;;!
    se_ret (Attached pk)
  | Detached o => se_ret (Detached (f o))
  end.

(** Reading the attributes of the object behind a handle. *)
Definition deref (h : handle) : SE Session BatchRecordORM :=
  match h with
  | Attached pk =>
    o ←! gets (λ s, identity_map s !! pk);
    match o with
    | Some o => se_ret o
    | None => raise (InvalidRequestError "instance is not persistent within this session")
    end
  | Detached o => se_ret o
  end.

(** [session.merge(orm)]: the state of a detached object is copied onto the
    persistent object with the same primary key, which is created when
    there is none; merging a persistent object of this session changes
    nothing. *)
Definition session_merge (h : handle) : SE Session unit :=
  match h with
  | Attached _ => se_ret tt
  | Detached o =>
    modify (λ s, {| database := database s;
                    identity_map := <[orm_batch_id o := o]> (identity_map s) |})
  end.

(** [session.commit()]: the state of every object of the identity map is
    written to its row. *)
Definition session_commit : SE Session unit :=
  modify (λ s, {| database := identity_map s ∪ database s;
                  identity_map := identity_map s |}).

(** [session.refresh(orm)]: the attributes are loaded again from the row. *)
Definition session_refresh (h : handle) : SE Session unit :=
  match h with
  | Attached pk =>
    row ←! gets (λ s, database s !! pk);
    match row with
    | Some row =>
      modify (λ s, {| database := database s;
                      identity_map := <[pk := row]> (identity_map s) |})
    | None => raise (InvalidRequestError "could not refresh instance")
    end
  | Detached _ => raise (InvalidRequestError "instance is not persistent within this session")
  end.

(** *** The service *)

(** [d or {}] and [l or []]: [None] and an empty container are falsy. *)
Definition or_dict (d : option (gmap string scalar)) : gmap string scalar :=
  match d with
  | Some d => if decide (d = ∅) then ∅ else d
  | None => ∅
  end.
Definition or_list (l : option (list string)) : list string :=
  match l with
  | Some (x :: l) => x :: l
  | Some [] | None => []
  end.

(** [bool(timestamp)] for [timestamp : datetime | None]: a [datetime] is
    always truthy. *)
Definition truthy (timestamp : option datetime) : bool :=
  match timestamp with Some _ => true | None => false end.

(** [BatchService._to_model].  The model's constructor validates its
    arguments: [recipe_id] and [status] do not accept [None]. *)
Definition _to_model (orm : BatchRecordORM) : exn + BatchRecord :=
  match orm_recipe_id orm, orm_status orm with
  | Some rid, Some st =>
    inr {| batch_id := orm_batch_id orm;
           recipe_id := rid;
           status := st;
           started_at := orm_started_at orm;
           completed_at := orm_completed_at orm;
           data := or_dict (orm_data orm);
           equipment := or_list (orm_equipment orm) |}
  | None, Some _ => inl (ValidationError ["recipe_id"])
  | Some _, None => inl (ValidationError ["status"])
  | None, None => inl (ValidationError ["recipe_id"; "status"])
  end.

Definition not_found (batch_id : string) : exn :=
  KeyError ("Batch record " +:+ batch_id +:+ " not found").

(** [BatchService.upsert_record] *)
Definition upsert_record (record : BatchRecord) : SE Table BatchRecord :=
  with_session (
    orm ←! session_get (batch_id record);
    let orm := match orm with
               | None => Detached (BatchRecordORM_new (batch_id record))
               | Some orm => orm
               end in
    orm ←! setattr (set_recipe_id (Some (recipe_id record))) orm;
    orm ←! setattr (set_status (Some (status record))) orm;
    orm ←! setattr (set_started_at (started_at record)) orm;
    orm ←! setattr (set_completed_at (completed_at record)) orm;
    orm ←! setattr (set_data (Some (data record))) orm;
    orm ←! setattr (set_equipment (Some (equipment record))) orm;
    session_merge orm ;;!
    session_commit ;;!
    se_ret record).

(** [status in {COMPLETED, ABORTED, HALTED}] *)
Definition is_terminal (status : BatchStatus) : bool :=
  bool_decide (status ∈ [COMPLETED; ABORTED; HALTED]).

(** [BatchService.update_status] *)
Definition update_status (batch_id : string) (status : BatchStatus)
    (timestamp : option datetime) : SE Table BatchRecord :=
  with_session (
    orm ←! session_get batch_id;
    match orm with
    | None => raise (not_found batch_id)
    | Some orm =>
      orm ←! setattr (set_status (Some status)) orm;
      orm ←! (if bool_decide (status = IN_PROGRESS) && truthy timestamp
              then setattr (set_started_at timestamp) orm
              else se_ret orm);
      orm ←! (if is_terminal status && truthy timestamp
              then setattr (set_completed_at timestamp) orm
              else se_ret orm);
      session_commit ;;!
      session_refresh orm ;;!
      o ←! deref orm;
      lift_sum (_to_model o)
    end).

(** [BatchService.get] *)
Definition get (batch_id : string) : SE Table BatchRecord :=
  with_session (
    orm ←! session_get batch_id;
    match orm with
    | None => raise (not_found batch_id)
    | Some orm =>
      o ←! deref orm;
      lift_sum (_to_model o)
    end).

(** [record_from_template] *)
Definition record_from_template (template : gmap string pyval) (batch_id : string)
    : exn + BatchRecord :=
  let recipe_id := default (PStr "unknown-recipe") (template !! "id") in
  let default_data := default (PDict ∅) (template !! "defaultData") in
  let equipment := default (PList []) (template !! "equipment") in
  BatchRecord_init batch_id recipe_id default_data equipment.

(** Two records that differ at most in their status and time stamps. *)
Definition same_content (r r' : BatchRecord) : Prop :=
  batch_id r' = batch_id r ∧ recipe_id r' = recipe_id r ∧
  data r' = data r ∧ equipment r' = equipment r.

(** *** Closed forms of the writes

    The state a row is left in by the assignments of [update_status], and
    the row [upsert_record] writes for a record; the lemmas
    [update_status_found] and [upsert_record_eq] relate them to the code. *)
Definition stamped (status : BatchStatus) (timestamp : option datetime)
    (row : BatchRecordORM) : BatchRecordORM :=
  let row := set_status (Some status) row in
  let row := if bool_decide (status = IN_PROGRESS) && truthy timestamp
             then set_started_at timestamp row else row in
  if is_terminal status && truthy timestamp
  then set_completed_at timestamp row else row.

(** The same assignments, seen on the record [_to_model] builds. *)
Definition transition (new_status : BatchStatus) (timestamp : option datetime)
    (record : BatchRecord) : BatchRecord :=
  {| batch_id := batch_id record;
     recipe_id := recipe_id record;
     status := new_status;
     started_at := if bool_decide (new_status = IN_PROGRESS) && truthy timestamp
                   then timestamp else started_at record;
     completed_at := if is_terminal new_status && truthy timestamp
                     then timestamp else completed_at record;
     data := data record;
     equipment := equipment record |}.

Definition to_orm (key : string) (record : BatchRecord) : BatchRecordORM :=
  {| orm_batch_id := key;
     orm_recipe_id := Some (recipe_id record);
     orm_status := Some (status record);
     orm_started_at := started_at record;
     orm_completed_at := completed_at record;
     orm_data := Some (data record);
     orm_equipment := Some (equipment record) |}.

(** *** [list_records]

    [[f(x) for x in xs]] where [f] may raise: the first exception ends the
    comprehension. *)
Fixpoint try_map {A B} (f : A → exn + B) (xs : list A) : exn + list B :=
  match xs with
  | [] => inr []
  | x :: xs =>
    match f x with
    | inl e => inl e
    | inr y =>
      match try_map f xs with
      | inl e => inl e
      | inr ys => inr (y :: ys)
      end
    end
  end.

(** [session.query(BatchRecordORM).all()]: every row, the objects the
    session already holds standing for their rows.  The order is the one of
    the storage, which nothing in the code fixes; the model takes the order
    of the keys and no statement below depends on it. *)
Definition session_query_all : SE Session (list BatchRecordORM) :=
  λ s, let rows := identity_map s ∪ database s in
       (inr (map_to_list rows).*2, {| database := database s; identity_map := rows |}).

(** [BatchService.list_records] *)
Definition list_records : SE Table (list BatchRecord) :=
  with_session (
    rows ←! session_query_all;
    lift_sum (try_map _to_model rows)).

(** *** Tables the service can produce

    The tables reached from the empty one by the two writing operations, and
    what holds of their rows: each is stored under its own [batch_id] and has
    the attributes the record model requires. *)
Inductive reachable : Table → Prop :=
| reachable_empty : reachable ∅
| reachable_upsert t record :
    reachable t → reachable (upsert_record record t).2
| reachable_update t batch_id status timestamp :
    reachable t → reachable (update_status batch_id status timestamp t).2.

Definition row_complete (row : BatchRecordORM) : Prop :=
  is_Some (orm_recipe_id row) ∧ is_Some (orm_status row).

Definition table_complete (t : Table) : Prop :=
  ∀ pk row, t !! pk = Some row → row_complete row.

End BatchService.

(** ** mes/config.py *)
Module Config.

Record QMIBConnectionSettings := {
  base_url : string;
  username : string;
  password : string;
  verify_ssl : bool;
}.

Record MESSettings := {
  environment : string;
  qmib : QMIBConnectionSettings;
}.

End Config.

(** ** mes/connectors/qmib_client.py *)
Module QMIBClient.
Import Config.

Record Request := {
  method : string;
  endpoint : string;
  json : option pyval;
  headers : list (string * string);
  auth : string * string;
}.

(** An [httpx.Response]: [json_value] is what [response.json()] evaluates
    to, [None] when the body does not decode. *)
Record Response := {
  status_code : Z;
  content : string;
  json_value : option pyval;
}.

(** The world outside the process.  [transport n req] is what the [n]-th
    call of [AsyncClient.request] does when it is given [req]: it raises, also
    when the request cannot be built, or returns the response received. *)
Record Env := {
  transport : nat → Request → exn + Response;
  calls : list Request;
  sleeps : list Z;
  clock : datetime;
}.

(** [await self._client.request(...)]: one attempt on the wire.  How long
    the attempt lasts is not represented; nothing below reads the clock after
    a request. *)
Definition client_request (req : Request) : SE Env Response :=
  λ env, (transport env (length (calls env)) req,
          {| transport := transport env; calls := calls env ++ [req];
             sleeps := sleeps env; clock := clock env |}).

(** [await asyncio.sleep(seconds)] *)
Definition sleep (seconds : Z) (env : Env) : Env :=
  {| transport := transport env; calls := calls env;
     sleeps := sleeps env ++ [seconds]; clock := clock env + seconds * 1000000 |}.

(** [datetime.utcnow()] *)
Definition utcnow : SE Env datetime := gets clock.

(** *** tenacity *)

(** [wait_exponential(multiplier, min, max)], after attempt [attempt_number]. *)
Definition wait_exponential (multiplier min max : Z) (attempt_number : nat) : Z :=
  Z.max (Z.max 0 min) (Z.min (multiplier * 2 ^ (Z.of_nat attempt_number - 1)) max).

(** [retry_if_exception_type(cls)]: retry when the attempt raised an
    instance of the class. *)
Definition retry_if_exception_type {A} (cls : exn → bool) (outcome : exn + A) : bool :=
  match outcome with inl e => cls e | inr _ => false end.

(** One iteration of [async for attempt in AsyncRetrying(...): with attempt:
    block] and those that follow it.  [attempts_left] is what
    [stop_after_attempt] still allows after attempt [attempt_number]; when
    nothing is left the last outcome is raised again ([reraise=True]) or
    wrapped. *)
Fixpoint attempt_loop {A} (wait : nat → Z) (retry : exn + A → bool) (reraise : bool)
    (block : SE Env A) (attempts_left attempt_number : nat) : SE Env A :=
  λ env,
    let '(outcome, env) := block env in
    if retry outcome then
      match attempts_left with
      | O =>
        (match outcome with
         | inl e => inl (if reraise then e else RetryError)
         | inr _ => inl (RetryError)
         end, env)
      | S attempts_left =>
        attempt_loop wait retry reraise block attempts_left (S attempt_number)
          (sleep (wait attempt_number) env)
      end
    else (outcome, env).

(** [AsyncRetrying(wait=..., stop=stop_after_attempt(n), retry=..., reraise=...)] *)
Definition AsyncRetrying {A} (wait : nat → Z) (stop_after_attempt : nat)
    (retry : exn + A → bool) (reraise : bool) (block : SE Env A) : SE Env A :=
  attempt_loop wait retry reraise block (stop_after_attempt - 1) 1.

(** *** The client *)

Definition UNAUTHORIZED : Z := 401.

(** [response.raise_for_status()] *)
Definition raise_for_status (response : Response) : SE Env unit :=
  if bool_decide (200 ≤ status_code response ≤ 299)%Z then se_ret tt
  else raise (HTTPStatusError (status_code response)).

(** [response.json()] *)
Definition response_json (response : Response) : exn + pyval :=
  match json_value response with
  | Some v => inr v
  | None => inl JSONDecodeError
  end.

(** What [_request] does with a response once the loop has ended. *)
Definition handle_response (response : Response) : SE Env pyval :=
  if bool_decide (status_code response = UNAUTHORIZED) then
    raise (QMIBAuthenticationError "Authentication to QMIB failed. Check credentials.")
  else
    raise_for_status response ;;!
    if bool_decide (content response ≠ EmptyString) then lift_sum (response_json response)
    else se_ret PNone.

Definition build_request (settings : MESSettings) (method endpoint : string)
    (json : option pyval) : Request :=
  {| method := method; endpoint := endpoint; json := json;
     headers := [("Content-Type", "application/json")];
     auth := (username (qmib settings), password (qmib settings)) |}.

(** [QMIBClient._request] *)
Definition _request (settings : MESSettings) (method endpoint : string)
    (json : option pyval) : SE Env pyval :=
  response ←! AsyncRetrying (wait_exponential 1 1 8) 3
                (retry_if_exception_type isinstance_HTTPError) true
                (client_request (build_request settings method endpoint json));
  handle_response response.

Definition fetch_equipment_state (settings : MESSettings) (equipment_id : string) :=
  _request settings "GET" ("/equipment/" +:+ equipment_id) None.

Definition publish_batch_record (settings : MESSettings) (batch_payload : gmap string pyval) :=
  _request settings "POST" "/batches" (Some (PDict batch_payload)).

Definition fetch_batch_template (settings : MESSettings) (template_id : string) :=
  _request settings "GET" ("/templates/" +:+ template_id) None.

Definition acknowledge_event (settings : MESSettings) (event_id : string)
    (acknowledgement : gmap string pyval) :=
  _request settings "POST" ("/events/" +:+ event_id +:+ "/acknowledge")
    (Some (PDict acknowledgement)).

(** The four remote operations, as data. *)
Inductive operation :=
| FetchEquipmentState (equipment_id : string)
| PublishBatchRecord (batch_payload : gmap string pyval)
| FetchBatchTemplate (template_id : string)
| AcknowledgeEvent (event_id : string) (acknowledgement : gmap string pyval).

Definition perform (settings : MESSettings) (op : operation) : SE Env pyval :=
  match op with
  | FetchEquipmentState equipment_id => fetch_equipment_state settings equipment_id
  | PublishBatchRecord batch_payload => publish_batch_record settings batch_payload
  | FetchBatchTemplate template_id => fetch_batch_template settings template_id
  | AcknowledgeEvent event_id acknowledgement => acknowledge_event settings event_id acknowledgement
  end.

(** The request each operation puts on the wire. *)
Definition request_of (settings : MESSettings) (op : operation) : Request :=
  match op with
  | FetchEquipmentState equipment_id =>
    build_request settings "GET" ("/equipment/" +:+ equipment_id) None
  | PublishBatchRecord batch_payload =>
    build_request settings "POST" "/batches" (Some (PDict batch_payload))
  | FetchBatchTemplate template_id =>
    build_request settings "GET" ("/templates/" +:+ template_id) None
  | AcknowledgeEvent event_id acknowledgement =>
    build_request settings "POST" ("/events/" +:+ event_id +:+ "/acknowledge")
      (Some (PDict acknowledgement))
  end.

(** *** Reading a run of the client

    What the transport answers to the [i]-th attempt counted from the state
    [env], and the number of attempts made between two states. *)
Definition outcome_at (env : Env) (req : Request) (i : nat) : exn + Response :=
  transport env (length (calls env) + i) req.

Definition attempts_between (env env' : Env) : nat :=
  length (calls env') - length (calls env).

(** The attempt is one the client's retry condition asks to repeat. *)
Definition retried (outcome : exn + Response) : bool :=
  retry_if_exception_type isinstance_HTTPError outcome.

(** The seconds slept, in all. *)
Definition total_sleep (waits : list Z) : Z := foldr Z.add 0 waits.

End QMIBClient.

(** ** mes/services/integration_service.py *)
Module IntegrationService.
Import Models Config.

(** The service works on the database and on the outside world.  Each
    remote call is made by a client opened for it and closed when the call
    returns or raises ([async with QMIBClient(...) as client]); closing
    changes nothing that is observed here. *)
Record World := { store : gmap string BatchService.BatchRecordORM; env : QMIBClient.Env }.

Definition on_store {A} (m : SE (gmap string BatchService.BatchRecordORM) A) : SE World A :=
  λ w, let '(r, t) := m (store w) in (r, {| store := t; env := env w |}).

Definition on_env {A} (m : SE QMIBClient.Env A) : SE World A :=
  λ w, let '(r, e) := m (env w) in (r, {| store := store w; env := e |}).

(** [type(v).__name__], as attribute errors print it. *)
Definition type_name (v : pyval) : string :=
  match v with
  | PNone => "NoneType"
  | PBool _ => "bool"
  | PInt _ => "int"
  | PFloat _ => "float"
  | PStr _ => "str"
  | PDatetime _ => "datetime.datetime"
  | PList _ => "list"
  | PDict _ => "dict"
  end.

(** [template.get(...)] on the value a fetch returned: only a mapping has
    the method, and the error of any other value names its type. *)
Definition as_mapping (v : pyval) : exn + gmap string pyval :=
  match v with
  | PDict d => inr d
  | _ => inl (AttributeError ("'" +:+ type_name v +:+ "' object has no attribute 'get'"))
  end.

(** [IntegrationService.synchronize_batch_from_template] *)
Definition synchronize_batch_from_template (settings : MESSettings)
    (template_id batch_id : string) : SE World BatchRecord :=
  template_payload ←! on_env (QMIBClient.fetch_batch_template settings template_id);
  template ←! lift_sum (as_mapping template_payload);
  record ←! lift_sum (BatchService.record_from_template template batch_id);
  on_store (BatchService.upsert_record record).

(** [IntegrationService.publish_batch_completion] *)
Definition publish_batch_completion (settings : MESSettings) (batch_id : string)
    : SE World pyval :=
  record ←! on_store (BatchService.get batch_id);
  if bool_decide (status record ≠ COMPLETED) then
    raise (ValueError "Only completed batch records can be published to QMIB")
  else
    let payload := BatchRecord_model_dump record in
    response ←! on_env (QMIBClient.publish_batch_record settings payload);
    se_ret response.

(** [IntegrationService.update_batch_status] *)
Definition update_batch_status (settings : MESSettings) (batch_id : string)
    (status : BatchStatus) : SE World BatchRecord :=
  timestamp ←! on_env QMIBClient.utcnow;
  record ←! on_store (BatchService.update_status batch_id status (Some timestamp));
  (if bool_decide (status = COMPLETED)
   then publish_batch_completion settings batch_id ;;! se_ret tt
   else se_ret tt) ;;!
  se_ret record.

(** [IntegrationService.acknowledge_event] *)
Definition acknowledge_event (settings : MESSettings)
    (acknowledgement : EventAcknowledgement) : SE World pyval :=
  response ←! on_env (QMIBClient.acknowledge_event settings
                        (event_id acknowledgement)
                        (EventAcknowledgement_model_dump acknowledgement));
  se_ret response.

End IntegrationService.

(** ** mes/api/routes.py *)
Module Routes.
Import Models Config.

(** What a route hands to the framework when it does not return: the
    [HTTPException] it raised itself, or an exception it let through. *)
Inductive failure :=
| HTTPException (status_code : Z) (detail : string)
| Unhandled (e : exn).

(** [update_status]: [KeyError] becomes a 404 whose detail is [str(exc)];
    every other exception passes.  [str] is Python's conversion of an
    exception to a string. *)
Definition update_status (str : exn → string) (settings : MESSettings)
    (batch_id : string) (status : BatchStatus)
    : IntegrationService.World → (failure + BatchRecord) * IntegrationService.World :=
  λ w, match IntegrationService.update_batch_status settings batch_id status w with
       | (inr record, w') => (inr record, w')
       | (inl (KeyError msg), w') => (inl (HTTPException 404 (str (KeyError msg))), w')
       | (inl e, w') => (inl (Unhandled e), w')
       end.

(** [list_batches], [create_batch], [create_from_template] and
    [acknowledge_event] hand their arguments to the services. *)
Definition list_batches : SE IntegrationService.World (list BatchRecord) :=
  IntegrationService.on_store BatchService.list_records.

Definition create_batch (record : BatchRecord) : SE IntegrationService.World BatchRecord :=
  IntegrationService.on_store (BatchService.upsert_record record).

Definition create_from_template (settings : MESSettings) (template_id batch_id : string)
    : SE IntegrationService.World BatchRecord :=
  IntegrationService.synchronize_batch_from_template settings template_id batch_id.

Definition acknowledge_event (settings : MESSettings) (acknowledgement : EventAcknowledgement)
    : SE IntegrationService.World pyval :=
  IntegrationService.acknowledge_event settings acknowledgement.

End Routes.

(** ** Concrete scenarios

    The inputs on which the statements below are exercised. *)
Module Scenario.
Import Models Config.

Definition settings : MESSettings :=
  {| environment := "development";
     qmib := {| base_url := "https://inmation-gateway:443/api/qmib";
                username := "svc-mes"; password := "secret"; verify_ssl := true |} |}.

(** A batch that has been started. *)
Definition batch_B1 : BatchRecord :=
  {| batch_id := "B1"; recipe_id := "R7"; status := IN_PROGRESS;
     started_at := Some 1700000000000000; completed_at := None;
     data := {[ "temp" := SInt 72 ]}; equipment := ["E1"; "E2"] |}.

(** The same identifier, planned again from another recipe. *)
Definition batch_B1_replanned : BatchRecord :=
  {| batch_id := "B1"; recipe_id := "R8"; status := PLANNED;
     started_at := None; completed_at := None;
     data := ∅; equipment := ["E3"] |}.

Definition table_B1 : gmap string BatchService.BatchRecordORM :=
  {[ "B1" := BatchService.to_orm "B1" batch_B1 ]}.

(** The payload of section 8 of the specification. *)
Definition template_R7 : gmap string pyval :=
  list_to_map [ ("id", PStr "R7");
                ("defaultData", PDict {[ "temp" := PInt 72 ]});
                ("equipment", PList [PStr "E1"; PStr "E2"]) ].

(** A remote system that answers the successive attempts as the script
    says, and with [rest] once the script is exhausted. *)
Definition scripted (script : list (exn + QMIBClient.Response))
    (rest : exn + QMIBClient.Response) (now : datetime) : QMIBClient.Env :=
  {| QMIBClient.transport := λ n _, default rest (script !! n);
     QMIBClient.calls := [];
     QMIBClient.sleeps := [];
     QMIBClient.clock := now |}.

Definition respond (status_code : Z) (content : string) (json_value : option pyval)
    : exn + QMIBClient.Response :=
  inr {| QMIBClient.status_code := status_code; QMIBClient.content := content;
         QMIBClient.json_value := json_value |}.

Definition ok_body : exn + QMIBClient.Response :=
  respond 200 "{}" (Some (PDict ∅)).
Definition ok_list_body : exn + QMIBClient.Response :=
  respond 200 "[1, 2]" (Some (PList [PInt 1; PInt 2])).
Definition no_content : exn + QMIBClient.Response := respond 204 EmptyString None.
Definition server_error : exn + QMIBClient.Response :=
  respond 500 "Service Unavailable" None.
Definition unauthorized : exn + QMIBClient.Response := respond 401 EmptyString None.
Definition refused : exn + QMIBClient.Response := inl (ConnectError "connection refused").
Definition timed_out : exn + QMIBClient.Response := inl (TimeoutException "read timeout").

Definition acknowledgement : EventAcknowledgement :=
  {| event_id := "EV-9"; acknowledged_by := "operator"; comment := None;
     acknowledged_at := 1700000000000000 |}.

End Scenario.

(** * Properties of the record store *)
Section batch_service.
Import Models BatchService.

Implicit Types (t : Table) (pk : string) (row : BatchRecordORM) (r : BatchRecord).

Lemma table_wf_empty : table_wf ∅.
Proof. intros pk row H. by rewrite lookup_empty in H. Qed.

Lemma table_wf_insert t pk row :
  table_wf t → orm_batch_id row = pk → table_wf (<[pk := row]> t).
Proof.
  intros Hwf Hpk k row' Hk.
  destruct (decide (pk = k)) as [<-|Hne].
  - rewrite lookup_insert_eq in Hk. by inversion Hk; subst.
  - rewrite lookup_insert_ne in Hk by done. by apply Hwf.
Qed.

(** [d or {}] and [l or []] give back the container they are given. *)
Lemma or_dict_Some (d : gmap string scalar) : or_dict (Some d) = d.
Proof. unfold or_dict. by case_decide. Qed.

Lemma or_list_Some (l : list string) : or_list (Some l) = l.
Proof. by destruct l. Qed.

(** What [_to_model] needs and what it copies. *)
Lemma to_model_inr row r :
  _to_model row = inr r ↔
  orm_recipe_id row = Some (recipe_id r) ∧ orm_status row = Some (status r) ∧
  r = {| batch_id := orm_batch_id row; recipe_id := recipe_id r; status := status r;
         started_at := orm_started_at row; completed_at := orm_completed_at row;
         data := or_dict (orm_data row); equipment := or_list (orm_equipment row) |}.
Proof.
  unfold _to_model. split.
  - destruct (orm_recipe_id row), (orm_status row); intros [= <-]; auto.
  - intros (-> & -> & Hr). by rewrite Hr at 3.
Qed.

(** *** [get] *)
Lemma get_found t pk row : t !! pk = Some row → get pk t = (_to_model row, t).
Proof.
  intros H. unfold get, with_session, se_bind, session_get, deref, gets, lift_sum; cbn.
  rewrite lookup_empty, H; cbn. rewrite lookup_insert_eq; cbn. done.
Qed.

Lemma get_missing t pk : t !! pk = None → get pk t = (inl (not_found pk), t).
Proof.
  intros H. unfold get, with_session, se_bind, session_get, raise; cbn.
  by rewrite lookup_empty, H.
Qed.

Lemma get_inr t pk r :
  (get pk t).1 = inr r ↔ ∃ row, t !! pk = Some row ∧ _to_model row = inr r.
Proof.
  destruct (t !! pk) as [row|] eqn:H.
  - rewrite (get_found _ _ _ H); cbn. split; [by eauto|].
    by intros (row' & [= <-] & ?).
  - rewrite (get_missing _ _ H); cbn. split; [done|]. by intros (? & ? & _).
Qed.

(** [get] never writes. *)
Lemma get_pure t pk : (get pk t).2 = t.
Proof.
  destruct (t !! pk) as [row|] eqn:H.
  - by rewrite (get_found _ _ _ H).
  - by rewrite (get_missing _ _ H).
Qed.

(** *** [update_status] *)

Lemma update_status_found t pk row status timestamp :
  t !! pk = Some row →
  update_status pk status timestamp t
  = (_to_model (stamped status timestamp row), <[pk := stamped status timestamp row]> t).
Proof.
  intros H.
  unfold update_status, with_session, se_bind, session_get; cbn.
  rewrite lookup_empty, H; cbn. unfold stamped.
  destruct (bool_decide (status = IN_PROGRESS) && truthy timestamp),
           (is_terminal status && truthy timestamp); cbn;
    rewrite ?alter_insert_eq, ?insert_empty, <-?insert_union_singleton_l;
    rewrite !lookup_insert_eq; cbn;
    rewrite ?insert_insert_eq, !lookup_insert_eq; cbn;
    by rewrite <-?insert_empty, ?insert_insert_eq.
Qed.

Lemma update_status_missing t pk status timestamp :
  t !! pk = None → update_status pk status timestamp t = (inl (not_found pk), t).
Proof.
  intros H. unfold update_status, with_session, se_bind, session_get, raise; cbn.
  by rewrite lookup_empty, H.
Qed.

Lemma update_status_wf t pk status timestamp :
  table_wf t → table_wf (update_status pk status timestamp t).2.
Proof.
  intros Hwf. destruct (t !! pk) as [row|] eqn:H.
  - rewrite (update_status_found _ _ _ _ _ H); cbn.
    apply table_wf_insert; [done|].
    rewrite <-(Hwf _ _ H). unfold stamped.
    by destruct (bool_decide _ && _), (is_terminal _ && _).
  - by rewrite (update_status_missing _ _ _ _ H).
Qed.

Lemma to_model_stamped row r status timestamp :
  _to_model row = inr r →
  _to_model (stamped status timestamp row) = inr (transition status timestamp r).
Proof.
  intros (Hrid & Hst & Hr)%to_model_inr.
  unfold stamped, transition, _to_model. rewrite Hr; clear Hr.
  destruct (bool_decide (status = IN_PROGRESS) && truthy timestamp),
           (is_terminal status && truthy timestamp); cbn -[or_dict or_list];
    by rewrite Hrid.
Qed.

(** [update_status] on a record that [get] returns: the record it returns,
    the table it leaves, and what [get] returns afterwards. *)
Lemma update_status_record t pk r status timestamp :
  (get pk t).1 = inr r →
  ∃ row, t !! pk = Some row ∧
    update_status pk status timestamp t
    = (inr (transition status timestamp r), <[pk := stamped status timestamp row]> t) ∧
    get pk (<[pk := stamped status timestamp row]> t)
    = (inr (transition status timestamp r), <[pk := stamped status timestamp row]> t).
Proof.
  intros (row & Hrow & Hr)%get_inr. exists row. split; [done|].
  rewrite (update_status_found _ _ _ _ _ Hrow).
  rewrite (get_found _ _ (stamped status timestamp row)) by apply lookup_insert_eq.
  by rewrite (to_model_stamped _ _ _ _ Hr).
Qed.

(** *** [upsert_record] *)
Lemma upsert_record_eq t r :
  upsert_record r t
  = (inr r, <[batch_id r := to_orm (from_option orm_batch_id (batch_id r) (t !! batch_id r)) r]> t).
Proof.
  unfold upsert_record, with_session, se_bind, session_get; cbn.
  rewrite lookup_empty. destruct (t !! batch_id r) as [row|]; cbn.
  - rewrite !alter_insert_eq; cbn. by rewrite insert_empty, <-insert_union_singleton_l.
  - by rewrite insert_empty, <-insert_union_singleton_l.
Qed.

Lemma upsert_record_wf t r : table_wf t → table_wf (upsert_record r t).2.
Proof.
  intros Hwf. rewrite upsert_record_eq; cbn.
  apply table_wf_insert; [done|]. cbn.
  destruct (t !! batch_id r) as [row|] eqn:H; cbn; [|done]. by apply Hwf.
Qed.

Lemma to_model_to_orm r : _to_model (to_orm (batch_id r) r) = inr r.
Proof.
  unfold _to_model, to_orm; cbn -[or_dict or_list].
  rewrite or_dict_Some, or_list_Some. by destruct r.
Qed.

End batch_service.

(** * Properties of the retry loop *)
Section retry_loop.
Import QMIBClient.

Context (wait : nat → Z) (cls : exn → bool) (req : Request).

Let retry : exn + Response → bool := retry_if_exception_type cls.
Let run := attempt_loop wait retry true (client_request req).

Lemma run_unfold more k env :
  run more k env =
  match outcome_at env req 0 with
  | inl e =>
    if cls e then
      match more with
      | O => (inl e, (client_request req env).2)
      | S more => run more (S k) (sleep (wait k) (client_request req env).2)
      end
    else (inl e, (client_request req env).2)
  | inr response => (inr response, (client_request req env).2)
  end.
Proof.
  unfold run, outcome_at. rewrite Nat.add_0_r.
  destruct more; cbn; destruct (transport env (length (calls env)) req) as [e|response]; cbn;
    try done; by destruct (cls e).
Qed.

Lemma outcome_at_next k env i :
  outcome_at (sleep (wait k) (client_request req env).2) req i = outcome_at env req (S i).
Proof.
  unfold outcome_at; cbn. rewrite length_app; cbn. f_equal. lia.
Qed.

(** The loop, read as a whole: it makes [n] attempts, between one and what
    the stop condition allows, all with the same request; it waits between
    two attempts; every attempt but the last raised an exception of the
    retried class; its outcome is the outcome of the last attempt, which is
    of the retried class only when the attempts are used up. *)
Lemma run_char more : ∀ k env,
  ∃ n, (1 ≤ n ≤ S more)%nat ∧
    calls (run more k env).2 = calls env ++ replicate n req ∧
    transport (run more k env).2 = transport env ∧
    sleeps (run more k env).2 = sleeps env ++ (wait <$> seq k (n - 1)) ∧
    (∀ i, (S i < n)%nat → ∃ e, outcome_at env req i = inl e ∧ cls e = true) ∧
    (run more k env).1 = outcome_at env req (n - 1) ∧
    (∀ e, (run more k env).1 = inl e → cls e = true → n = S more).
Proof.
  induction more as [|more IH]; intros k env.
  - exists 1%nat. rewrite run_unfold.
    destruct (outcome_at env req 0) as [e|response] eqn:Hout;
      [destruct (cls e) eqn:Hcls|]; cbn; rewrite ?app_nil_r, ?Hout;
      repeat split; try done; try lia; intros; lia.
  - rewrite run_unfold.
    destruct (outcome_at env req 0) as [e|response] eqn:Hout; [destruct (cls e) eqn:Hcls|].
    + destruct (IH (S k) (sleep (wait k) (client_request req env).2))
        as (n & Hn & Hcalls & Htr & Hsl & Hpre & Hres & Hlast).
      exists (S n). split; [lia|]. repeat split.
      * rewrite Hcalls; cbn. by rewrite <-app_assoc.
      * by rewrite Htr.
      * rewrite Hsl; cbn. rewrite <-app_assoc. f_equal.
        destruct n as [|n]; [lia|]. cbn. by rewrite Nat.sub_0_r.
      * intros [|i] Hi; [by eauto|].
        rewrite <-(outcome_at_next k). apply Hpre. lia.
      * rewrite Hres, outcome_at_next. f_equal. lia.
      * intros e' He' Hc. f_equal. by eapply Hlast.
    + exists 1%nat. cbn. rewrite app_nil_r, Hout.
      repeat split; try done; try lia.
      intros e' [= <-] ?; congruence.
    + exists 1%nat. cbn. rewrite app_nil_r, Hout.
      repeat split; try done; lia.
Qed.

End retry_loop.

(** * Properties of the remote client *)
Section remote_client.
Import Config QMIBClient.

Context (settings : MESSettings).

Implicit Types (op : operation) (env : Env) (response : Response).

(** Every operation is the retry loop on its one request, followed by the
    handling of the response. *)
Lemma perform_eq op :
  perform settings op =
  se_bind (attempt_loop (wait_exponential 1 1 8)
             (retry_if_exception_type isinstance_HTTPError) true
             (client_request (request_of settings op)) 2 1)
          handle_response.
Proof. by destruct op. Qed.

(** Handling a response touches nothing and depends on the response only. *)
Lemma handle_response_env response env : (handle_response response env).2 = env.
Proof.
  unfold handle_response, raise_for_status, se_bind, raise, lift_sum, se_ret.
  by repeat (case_bool_decide; cbn).
Qed.

Lemma handle_response_value response env env' :
  (handle_response response env).1 = (handle_response response env').1.
Proof.
  unfold handle_response, raise_for_status, se_bind, raise, lift_sum, se_ret.
  by repeat (case_bool_decide; cbn).
Qed.

(** An operation as a whole. *)
Lemma perform_char op env :
  let req := request_of settings op in
  let res := perform settings op env in
  ∃ n, (1 ≤ n ≤ 3)%nat ∧
    calls res.2 = calls env ++ replicate n req ∧
    transport res.2 = transport env ∧
    sleeps res.2 = sleeps env ++ (wait_exponential 1 1 8 <$> seq 1 (n - 1)) ∧
    (∀ i, (S i < n)%nat →
       ∃ e, outcome_at env req i = inl e ∧ isinstance_HTTPError e = true) ∧
    match outcome_at env req (n - 1) with
    | inl e => res.1 = inl e ∧ (isinstance_HTTPError e = true → n = 3%nat)
    | inr response => res.1 = (handle_response response env).1
    end.
Proof.
  intros req res. subst res. rewrite perform_eq. fold req.
  destruct (run_char (wait_exponential 1 1 8) isinstance_HTTPError req 2 1 env)
    as (n & Hn & Hcalls & Htr & Hsl & Hpre & Hres & Hlast).
  exists n. unfold se_bind.
  destruct (attempt_loop _ _ _ _ _ _ env) as [[e|response] env'] eqn:Hrun;
    cbn in Hcalls, Htr, Hsl, Hres, Hlast.
  - cbn. rewrite <-Hres. repeat split; try done; try lia. by apply Hlast.
  - rewrite handle_response_env, <-Hres.
    by rewrite (handle_response_value response env' env).
Qed.

(** The attempt that settles an operation.  When the first [j] attempts are
    ones to repeat and attempt [j + 1] is not, or is the third, the operation
    makes exactly [j + 1] attempts, waits [j] times, and its result is
    decided by that attempt alone. *)
Lemma perform_settles op env j :
  let req := request_of settings op in
  let res := perform settings op env in
  (j < 3)%nat →
  (∀ i, (i < j)%nat → retried (outcome_at env req i) = true) →
  retried (outcome_at env req j) = false ∨ j = 2%nat →
  calls res.2 = calls env ++ replicate (S j) req ∧
  sleeps res.2 = sleeps env ++ (wait_exponential 1 1 8 <$> seq 1 j) ∧
  res.1 = match outcome_at env req j with
          | inl e => inl e
          | inr response => (handle_response response env).1
          end.
Proof.
  intros req res Hj Hpre Hend.
  destruct (perform_char op env) as (n & Hn & Hcalls & _ & Hsl & Hbefore & Hlast).
  fold req res in Hcalls, Hsl, Hbefore, Hlast.
  assert (n = S j) as ->.
  { destruct (decide (n ≤ j)%nat) as [Hle|Hgt].
    - specialize (Hpre (n - 1)%nat ltac:(lia)). unfold retried in Hpre.
      destruct (outcome_at env req (n - 1)) as [e|?]; [|done].
      destruct Hlast as [_ Hlast]. specialize (Hlast Hpre). lia.
    - destruct (decide (n = S j)) as [|Hne]; [done|].
      destruct (Hbefore j ltac:(lia)) as (e & He & Hcls).
      destruct Hend as [Hend| ->]; [|lia].
      unfold retried in Hend. rewrite He in Hend. cbn in Hend. congruence. }
  replace (S j - 1)%nat with j in * by lia.
  repeat split; try done.
  destruct (outcome_at env req j); [by destruct Hlast|done].
Qed.

End remote_client.

(** * Properties of the orchestration *)
Section integration_service.
Import Models Config BatchService IntegrationService.

Context (settings : MESSettings).

Implicit Types (w : World) (pk : string) (r : BatchRecord).

Lemma world_eta w : {| store := store w; env := env w |} = w.
Proof. by destruct w. Qed.

(** On an identifier the store does not know, nothing happens but the
    exception. *)
Lemma update_batch_status_missing w pk status :
  store w !! pk = None →
  update_batch_status settings pk status w = (inl (not_found pk), w).
Proof.
  intros H. unfold update_batch_status, se_bind, on_env, on_store; cbn.
  rewrite (update_status_missing _ _ _ _ H); cbn. by rewrite world_eta.
Qed.

(** A status other than [COMPLETED] is a local write stamped with the
    clock. *)
Lemma update_batch_status_local w pk status :
  status ≠ COMPLETED →
  update_batch_status settings pk status w
  = ((update_status pk status (Some (QMIBClient.clock (env w))) (store w)).1,
     {| store := (update_status pk status (Some (QMIBClient.clock (env w))) (store w)).2;
        env := env w |}).
Proof.
  intros H. unfold update_batch_status, se_bind, on_env, on_store; cbn.
  destruct (update_status _ _ _ _) as [[e|r] t']; cbn; [done|].
  by rewrite bool_decide_eq_false_2.
Qed.

(** Publishing a record that is stored as [COMPLETED]: the request carries
    the dump of the whole record, and the store is only read. *)
Lemma publish_batch_completion_eq w pk r :
  (get pk (store w)).1 = inr r →
  status r = COMPLETED →
  let pub := QMIBClient.publish_batch_record settings (BatchRecord_model_dump r) (env w) in
  publish_batch_completion settings pk w = (pub.1, {| store := store w; env := pub.2 |}).
Proof.
  intros Hr Hst pub.
  unfold publish_batch_completion, se_bind, on_env, on_store.
  pose proof (get_pure (store w) pk) as Hpure.
  destruct (get pk (store w)) as [res t']; cbn in Hr, Hpure; subst res t'.
  rewrite bool_decide_eq_false_2 by (rewrite Hst; auto).
  cbn [store env]. fold pub. by destruct pub as [[e|v] env'].
Qed.

(** [COMPLETED]: the local write, then the publication of the record just
    written; the result is the record or what the publication raised, and
    the store is the one the local write left. *)
Lemma update_batch_status_completed w pk r :
  (get pk (store w)).1 = inr r →
  let now := QMIBClient.clock (env w) in
  let r' := transition COMPLETED (Some now) r in
  let pub := QMIBClient.publish_batch_record settings (BatchRecord_model_dump r') (env w) in
  update_batch_status settings pk COMPLETED w
  = (match pub.1 with inl e => inl e | inr _ => inr r' end,
     {| store := (update_status pk COMPLETED (Some now) (store w)).2; env := pub.2 |}).
Proof.
  intros Hr now r' pub.
  destruct (update_status_record _ _ _ COMPLETED (Some now) Hr) as (row & Hrow & Hupd & Hget).
  unfold update_batch_status, se_bind, on_env, on_store, QMIBClient.utcnow, gets.
  cbn [store env]. fold now. rewrite !Hupd, bool_decide_eq_true_2 by done.
  cbv beta iota.
  rewrite (publish_batch_completion_eq _ pk r'); cbn [store env snd]; [| by rewrite Hget | done].
  fold pub. by destruct pub as [[e|v] env'].
Qed.

End integration_service.

(** * The record store, as specified *)
Section store_claims.
Import Models Config BatchService IntegrationService.

Implicit Types (t : Table) (w : World) (pk : string) (r : BatchRecord).

(** Whatever the status, the orchestrator leaves in the store what
    [BatchService.update_status] writes with the clock as time stamp. *)
Lemma update_batch_status_store settings w pk r status :
  (get pk (store w)).1 = inr r →
  store (update_batch_status settings pk status w).2
  = (update_status pk status (Some (QMIBClient.clock (env w))) (store w)).2.
Proof.
  intros Hr. destruct (decide (status = COMPLETED)) as [->|Hne].
  - by rewrite (update_batch_status_completed settings w pk r Hr).
  - by rewrite (update_batch_status_local settings w pk status Hne).
Qed.

(** C6: for a record of the store, [update_status] to [IN_PROGRESS] sets
    [started_at] to the time stamp and leaves [completed_at] as it was, to
    [COMPLETED] sets [completed_at] and leaves [started_at] as it was, and to
    any status leaves [batch_id], [recipe_id], [data] and [equipment] as they
    were.  This holds of [BatchService.update_status] for the time stamp it is
    given, and of the orchestrator, whose time stamp is the clock read during
    the call and so not earlier than the call. *)
Theorem update_status_timestamps settings w pk r :
  (get pk (store w)).1 = inr r →
  (∀ status ts, ∃ r',
      (update_status pk status (Some ts) (store w)).1 = inr r' ∧
      (get pk (update_status pk status (Some ts) (store w)).2).1 = inr r' ∧
      same_content r r' ∧
      (status = IN_PROGRESS → started_at r' = Some ts ∧ completed_at r' = completed_at r) ∧
      (status = COMPLETED → completed_at r' = Some ts ∧ started_at r' = started_at r)) ∧
  (∀ status, ∃ r' ts,
      (QMIBClient.clock (env w) ≤ ts)%Z ∧
      (get pk (store (update_batch_status settings pk status w).2)).1 = inr r' ∧
      same_content r r' ∧
      (status = IN_PROGRESS → started_at r' = Some ts ∧ completed_at r' = completed_at r) ∧
      (status = COMPLETED → completed_at r' = Some ts ∧ started_at r' = started_at r)).
Proof.
  intros Hr.
  assert (Hstore : ∀ status ts, ∃ r',
      (update_status pk status (Some ts) (store w)).1 = inr r' ∧
      (get pk (update_status pk status (Some ts) (store w)).2).1 = inr r' ∧
      same_content r r' ∧
      (status = IN_PROGRESS → started_at r' = Some ts ∧ completed_at r' = completed_at r) ∧
      (status = COMPLETED → completed_at r' = Some ts ∧ started_at r' = started_at r)).
  { intros status ts.
    destruct (update_status_record _ _ _ status (Some ts) Hr) as (row & _ & Hupd & Hget).
    exists (transition status (Some ts) r). rewrite Hupd; cbn [fst snd]. rewrite Hget.
    repeat split; try done; by subst status. }
  split; [done|]. intros status.
  destruct (Hstore status (QMIBClient.clock (env w))) as (r' & _ & Hget & Hrest).
  exists r', (QMIBClient.clock (env w)).
  rewrite (update_batch_status_store settings w pk r status Hr).
  split; [lia|done].
Qed.

Lemma update_status_timestamps_witness :
  let w := {| store := Scenario.table_B1; env := Scenario.scripted [] Scenario.refused 1700000360000000 |} in
  (get "B1" (store w)).1 = inr Scenario.batch_B1 ∧
  ∀ status, ∃ r' ts,
      (QMIBClient.clock (env w) ≤ ts)%Z ∧
      (get "B1" (store (update_batch_status Scenario.settings "B1" status w).2)).1 = inr r' ∧
      same_content Scenario.batch_B1 r' ∧
      (status = IN_PROGRESS → started_at r' = Some ts ∧ completed_at r' = completed_at Scenario.batch_B1) ∧
      (status = COMPLETED → completed_at r' = Some ts ∧ started_at r' = started_at Scenario.batch_B1).
Proof.
  intros w. split; [vm_compute; reflexivity|].
  apply (update_status_timestamps Scenario.settings w "B1" Scenario.batch_B1).
  vm_compute; reflexivity.
Defined.

(** C7: [update_status] on an identifier that is not in the store raises
    the not-found error and leaves the store as it was, row for row; the same
    holds of the orchestrator, which then makes no remote call either. *)
Theorem update_status_unknown_id t pk status timestamp :
  t !! pk = None →
  (update_status pk status timestamp t).1
    = inl (KeyError ("Batch record " +:+ pk +:+ " not found")) ∧
  (update_status pk status timestamp t).2 = t ∧
  (∀ k, (update_status pk status timestamp t).2 !! k = t !! k) ∧
  ∀ settings e,
    update_batch_status settings pk status {| store := t; env := e |}
    = (inl (KeyError ("Batch record " +:+ pk +:+ " not found")), {| store := t; env := e |}).
Proof.
  intros H. rewrite (update_status_missing _ _ _ _ H). repeat split.
  intros settings e. by rewrite update_batch_status_missing.
Qed.

Lemma update_status_unknown_id_witness :
  Scenario.table_B1 !! "B2" = None ∧
  (update_status "B2" COMPLETED (Some 1700000360000000%Z) Scenario.table_B1).1
    = inl (KeyError "Batch record B2 not found") ∧
  (update_status "B2" COMPLETED (Some 1700000360000000%Z) Scenario.table_B1).2
    = Scenario.table_B1.
Proof.
  split; [vm_compute; reflexivity|].
  destruct (update_status_unknown_id Scenario.table_B1 "B2" COMPLETED
              (Some 1700000360000000%Z)) as (Hraise & Hsame & _);
    [vm_compute; reflexivity|].
  split; [exact Hraise|exact Hsame].
Defined.

(** C8: [upsert_record] followed by [get] on the same identifier returns the
    record that was upserted; when the identifier was already stored, every
    column of its row but [batch_id] takes the value of the new record, and
    [batch_id] keeps the value it had.  No other row is touched. *)
Theorem upsert_then_get t r :
  table_wf t →
  (upsert_record r t).1 = inr r ∧
  get (batch_id r) (upsert_record r t).2 = (inr r, (upsert_record r t).2) ∧
  (∀ old, t !! batch_id r = Some old →
     ∃ new, (upsert_record r t).2 !! batch_id r = Some new ∧
       orm_batch_id new = orm_batch_id old ∧
       orm_recipe_id new = Some (recipe_id r) ∧
       orm_status new = Some (status r) ∧
       orm_started_at new = started_at r ∧
       orm_completed_at new = completed_at r ∧
       orm_data new = Some (data r) ∧
       orm_equipment new = Some (equipment r)) ∧
  (∀ k, k ≠ batch_id r → (upsert_record r t).2 !! k = t !! k) ∧
  table_wf (upsert_record r t).2.
Proof.
  intros Hwf. pose proof (upsert_record_wf t r Hwf) as Hwf'.
  rewrite upsert_record_eq in *; cbn [fst snd] in *.
  repeat split; try done.
  - rewrite (get_found _ _ _ (lookup_insert_eq _ _ _)). f_equal.
    destruct (t !! batch_id r) as [old|] eqn:Hold; cbn [from_option].
    + rewrite (Hwf _ _ Hold). apply to_model_to_orm.
    + apply to_model_to_orm.
  - intros old Hold. rewrite Hold; cbn [from_option].
    eexists. split; [apply lookup_insert_eq|]. by repeat split.
  - intros k Hk. by rewrite lookup_insert_ne.
Qed.

Lemma upsert_then_get_witness :
  table_wf Scenario.table_B1 ∧
  get "B1" (upsert_record Scenario.batch_B1_replanned Scenario.table_B1).2
  = (inr Scenario.batch_B1_replanned,
     (upsert_record Scenario.batch_B1_replanned Scenario.table_B1).2).
Proof.
  assert (Hwf : table_wf Scenario.table_B1).
  { apply (bool_decide_unpack (map_Forall (λ pk row, orm_batch_id row = pk) Scenario.table_B1)).
    vm_compute; reflexivity. }
  split; [exact Hwf|].
  apply (upsert_then_get Scenario.table_B1 Scenario.batch_B1_replanned Hwf).
Defined.

(** C10: without a time stamp, [BatchService.update_status] changes the
    status of the stored record and nothing else: [started_at] and
    [completed_at] keep their values whatever the new status is. *)
Theorem update_status_without_timestamp t pk r status :
  (get pk t).1 = inr r →
  let r' := {| batch_id := batch_id r; recipe_id := recipe_id r; status := status;
               started_at := started_at r; completed_at := completed_at r;
               data := data r; equipment := equipment r |} in
  (update_status pk status None t).1 = inr r' ∧
  (get pk (update_status pk status None t).2).1 = inr r' ∧
  ∀ k, k ≠ pk → (update_status pk status None t).2 !! k = t !! k.
Proof.
  intros Hr r'.
  destruct (update_status_record _ _ _ status None Hr) as (row & _ & Hupd & Hget).
  rewrite Hupd; cbn [fst snd]. rewrite Hget; cbn [fst].
  assert (transition status None r = r') as ->.
  { unfold transition, r'. cbn [truthy]. by rewrite !andb_false_r. }
  repeat split. intros k Hk. by rewrite lookup_insert_ne.
Qed.

Lemma update_status_without_timestamp_witness :
  (get "B1" Scenario.table_B1).1 = inr Scenario.batch_B1 ∧
  (get "B1" (update_status "B1" COMPLETED None Scenario.table_B1).2).1
  = inr {| batch_id := "B1"; recipe_id := "R7"; status := COMPLETED;
           started_at := Some 1700000000000000%Z; completed_at := None;
           data := {[ "temp" := SInt 72 ]}; equipment := ["E1"; "E2"] |}.
Proof.
  split; [vm_compute; reflexivity|].
  apply (update_status_without_timestamp Scenario.table_B1 "B1" Scenario.batch_B1 COMPLETED).
  vm_compute; reflexivity.
Defined.

End store_claims.

(** * The template adapter, as specified *)
Section template_adapter.
Import Models BatchService.

(** Validation accepts what a dump produces, and gives it back. *)
Lemma validate_scalar_dump (x : scalar) : validate_scalar (scalar_dump x) = Some x.
Proof. by destruct x. Qed.

Lemma validate_data_dump (d : gmap string scalar) :
  validate_data (PDict (scalar_dump <$> d)) = Some d.
Proof.
  unfold validate_data. rewrite bool_decide_eq_true_2.
  - f_equal. apply map_eq; intros k.
    rewrite lookup_omap, lookup_fmap.
    destruct (d !! k) as [x|]; cbn; [apply validate_scalar_dump|done].
  - intros k v. rewrite lookup_fmap. destruct (d !! k) as [x|]; cbn; [|done].
    intros [= <-]. rewrite validate_scalar_dump. by eexists.
Qed.

Lemma validate_equipment_strs (l : list string) :
  validate_equipment (PList (PStr <$> l)) = Some l.
Proof.
  unfold validate_equipment. induction l as [|x l IH]; [done|].
  cbn. cbn in IH. by rewrite IH.
Qed.

(** C9, as the code has it: from a template whose [id], [defaultData] and
    [equipment] are each either absent or of the declared type, that is a
    string, a mapping of scalars and a list of strings,
    [record_from_template] builds the record with the given [batch_id], the
    template's [id] or ["unknown-recipe"], the template's [defaultData] or the
    empty mapping, the template's [equipment] or the empty list, status
    [PLANNED] and no time stamp.  It is a function, and an absent key is
    never an error; other keys of the template are ignored. *)
Theorem record_from_template_defaults (template : gmap string pyval) (batch_id : string)
    (id : option string) (defaultData : option (gmap string scalar))
    (equipment : option (list string)) :
  template !! "id" = PStr <$> id →
  template !! "defaultData" = (λ d, PDict (scalar_dump <$> d)) <$> defaultData →
  template !! "equipment" = (λ l, PList (PStr <$> l)) <$> equipment →
  record_from_template template batch_id
  = inr {| Models.batch_id := batch_id;
           recipe_id := default "unknown-recipe" id;
           status := PLANNED;
           started_at := None;
           completed_at := None;
           data := default ∅ defaultData;
           Models.equipment := default [] equipment |}.
Proof.
  intros Hid Hdata Hequipment. unfold record_from_template, BatchRecord_init.
  rewrite Hid, Hdata, Hequipment.
  assert (validate_str (default (PStr "unknown-recipe") (PStr <$> id))
          = Some (default "unknown-recipe" id)) as -> by by destruct id.
  assert (validate_data (default (PDict ∅) ((λ d, PDict (scalar_dump <$> d)) <$> defaultData))
          = Some (default ∅ defaultData)) as ->.
  { destruct defaultData as [d|]; cbn [default fmap option_fmap option_map].
    - apply validate_data_dump.
    - by rewrite <-(validate_data_dump ∅), fmap_empty. }
  assert (validate_equipment (default (PList []) ((λ l, PList (PStr <$> l)) <$> equipment))
          = Some (default [] equipment)) as ->.
  { destruct equipment as [l|]; cbn [default fmap option_fmap option_map]; [|done].
    apply validate_equipment_strs. }
  done.
Qed.

Lemma record_from_template_defaults_witness :
  (Scenario.template_R7 !! "id" = PStr <$> Some "R7" ∧
   Scenario.template_R7 !! "defaultData"
     = (λ d, PDict (scalar_dump <$> d)) <$> Some ({[ "temp" := SInt 72 ]} : gmap string scalar) ∧
   Scenario.template_R7 !! "equipment" = (λ l, PList (PStr <$> l)) <$> Some ["E1"; "E2"]) ∧
  record_from_template Scenario.template_R7 "B100"
  = inr {| Models.batch_id := "B100"; recipe_id := "R7"; status := PLANNED;
           started_at := None; completed_at := None;
           data := {[ "temp" := SInt 72 ]}; Models.equipment := ["E1"; "E2"] |}.
Proof.
  split; [repeat split; vm_compute; reflexivity|].
  etrans;
    [ apply (record_from_template_defaults Scenario.template_R7 "B100"
               (Some "R7") (Some {[ "temp" := SInt 72 ]}) (Some ["E1"; "E2"]));
      vm_compute; reflexivity
    | reflexivity ].
Defined.

(** The empty payload of the specification. *)
Example record_from_empty_template :
  record_from_template ∅ "B101"
  = inr {| Models.batch_id := "B101"; recipe_id := "unknown-recipe"; status := PLANNED;
           started_at := None; completed_at := None; data := ∅; Models.equipment := [] |}.
Proof. vm_compute; reflexivity. Qed.

(** C9, as it was stated, fails: a payload whose [id] is a number or
    [null], or whose [defaultData] holds a nested mapping, is a mapping with
    the optional keys, yet no record is constructed from it; the constructor
    of the record rejects the value and the adapter raises. *)
Lemma ill_typed_template_is_rejected :
  record_from_template {[ "id" := PInt 7 ]} "B102" = inl (ValidationError ["recipe_id"]) ∧
  record_from_template {[ "id" := PNone ]} "B102" = inl (ValidationError ["recipe_id"]) ∧
  record_from_template {[ "defaultData" := PDict {[ "limits" := PDict ∅ ]} ]} "B102"
    = inl (ValidationError ["data"]) ∧
  ¬ ∃ r, record_from_template {[ "id" := PInt 7 ]} "B102" = inr r.
Proof.
  assert (H7 : record_from_template {[ "id" := PInt 7 ]} "B102"
               = inl (ValidationError ["recipe_id"])) by (vm_compute; reflexivity).
  split; [exact H7|]. split; [vm_compute; reflexivity|]. split; [vm_compute; reflexivity|].
  intros [r Hr]. rewrite H7 in Hr. discriminate.
Qed.

End template_adapter.

(** * The remote client, as specified *)
Section client_claims.
Import Models Config QMIBClient.

Implicit Types (op : operation) (env : Env) (response : Response).

(** What becomes of a response, by its status. *)
Lemma handle_response_unauthorized response env :
  status_code response = UNAUTHORIZED →
  (handle_response response env).1
  = inl (QMIBAuthenticationError "Authentication to QMIB failed. Check credentials.").
Proof. intros H. unfold handle_response. by rewrite bool_decide_eq_true_2. Qed.

Lemma handle_response_success response env :
  (200 ≤ status_code response ≤ 299)%Z →
  (handle_response response env).1
  = if bool_decide (content response ≠ EmptyString) then response_json response
    else inr PNone.
Proof.
  intros H. unfold handle_response, raise_for_status, se_bind.
  rewrite bool_decide_eq_false_2 by (unfold UNAUTHORIZED; lia).
  rewrite bool_decide_eq_true_2 by done. cbn. by case_bool_decide.
Qed.

Lemma handle_response_error response env :
  status_code response ≠ UNAUTHORIZED →
  ¬ (200 ≤ status_code response ≤ 299)%Z →
  (handle_response response env).1 = inl (HTTPStatusError (status_code response)).
Proof.
  intros H401 H2xx. unfold handle_response, raise_for_status, se_bind.
  rewrite (bool_decide_eq_false_2 _ H401). by rewrite (bool_decide_eq_false_2 _ H2xx).
Qed.

Lemma attempts_between_app env env' n (req : Request) :
  calls env' = calls env ++ replicate n req → attempts_between env env' = n.
Proof.
  intros H. unfold attempts_between. rewrite H, length_app, length_replicate. lia.
Qed.

(** C3: when the first two attempts of an operation raise transport
    failures, a third attempt is made and no more.  If it receives a
    successful response, the operation returns the body of that response; if
    it raises a transport failure too, the operation raises that very
    failure. *)
Theorem third_attempt_decides settings op env e1 e2 third :
  let req := request_of settings op in
  let res := perform settings op env in
  outcome_at env req 0 = inl e1 → isinstance_HTTPError e1 = true →
  outcome_at env req 1 = inl e2 → isinstance_HTTPError e2 = true →
  outcome_at env req 2 = third →
  match third with
  | inl e3 => isinstance_HTTPError e3 = true
  | inr response => (200 ≤ status_code response ≤ 299)%Z
  end →
  calls res.2 = calls env ++ [req; req; req] ∧
  attempts_between env res.2 = 3%nat ∧
  sleeps res.2 = sleeps env ++ [1; 2]%Z ∧
  res.1 = match third with
          | inl e3 => inl e3
          | inr response =>
            if bool_decide (content response ≠ EmptyString) then response_json response
            else inr PNone
          end.
Proof.
  intros req res H1 Hc1 H2 Hc2 H3 Hthird.
  destruct (perform_settles settings op env 2) as (Hcalls & Hsl & Hres); [lia| |by right|].
  { intros [|[|i]] Hi; [| |lia]; unfold retried.
    - fold req. by rewrite H1.
    - fold req. by rewrite H2. }
  fold req res in Hcalls, Hsl, Hres. rewrite H3 in Hres.
  repeat split; try done.
  - by apply (attempts_between_app _ _ 3 req).
  - rewrite Hres. destruct third as [e3|response]; [done|].
    by apply handle_response_success.
Qed.

Lemma third_attempt_decides_witness :
  let env := Scenario.scripted [Scenario.refused; Scenario.timed_out; Scenario.ok_body]
               Scenario.refused 0 in
  let op := FetchBatchTemplate "T1" in
  (outcome_at env (request_of Scenario.settings op) 0 = inl (ConnectError "connection refused") ∧
   outcome_at env (request_of Scenario.settings op) 1 = inl (TimeoutException "read timeout") ∧
   outcome_at env (request_of Scenario.settings op) 2 = Scenario.ok_body) ∧
  attempts_between env (perform Scenario.settings op env).2 = 3%nat ∧
  (perform Scenario.settings op env).1 = inr (PDict ∅).
Proof.
  intros env op. split; [repeat split; vm_compute; reflexivity|].
  destruct (third_attempt_decides Scenario.settings op env
              (ConnectError "connection refused") (TimeoutException "read timeout")
              Scenario.ok_body) as (_ & Hn & _ & Hres);
    [reflexivity|reflexivity|reflexivity|reflexivity|reflexivity|cbn; lia|].
  split; [exact Hn|exact Hres].
Defined.

(** Three failures in a row, on a remote system that would have answered a
    fourth attempt. *)
Example three_failures_raise_the_third :
  let env := Scenario.scripted [Scenario.refused; Scenario.refused; Scenario.timed_out]
               Scenario.ok_body 0 in
  let res := perform Scenario.settings (PublishBatchRecord ∅) env in
  res.1 = inl (TimeoutException "read timeout") ∧
  length (calls res.2) = 3%nat ∧ sleeps res.2 = [1; 2]%Z.
Proof. vm_compute. repeat split. Qed.

(** C4: when an attempt of an operation receives a response whose status
    is unauthorized, the operation raises the authentication error and that
    attempt is its last one, however few attempts were made before it. *)
Theorem unauthorized_is_final settings op env j response :
  let req := request_of settings op in
  let res := perform settings op env in
  (j < 3)%nat →
  (∀ i, (i < j)%nat → retried (outcome_at env req i) = true) →
  outcome_at env req j = inr response →
  status_code response = UNAUTHORIZED →
  res.1 = inl (QMIBAuthenticationError "Authentication to QMIB failed. Check credentials.") ∧
  calls res.2 = calls env ++ replicate (S j) req ∧
  attempts_between env res.2 = S j.
Proof.
  intros req res Hj Hpre Hout H401.
  destruct (perform_settles settings op env j Hj Hpre) as (Hcalls & _ & Hres).
  { left. fold req. by rewrite Hout. }
  fold req res in Hcalls, Hres. rewrite Hout in Hres.
  repeat split; [|done|by apply (attempts_between_app _ _ _ req)].
  rewrite Hres. by apply handle_response_unauthorized.
Qed.

Lemma unauthorized_is_final_witness :
  let env := Scenario.scripted [Scenario.unauthorized] Scenario.ok_body 0 in
  let op := FetchEquipmentState "E1" in
  (outcome_at env (request_of Scenario.settings op) 0 = Scenario.unauthorized) ∧
  (perform Scenario.settings op env).1
  = inl (QMIBAuthenticationError "Authentication to QMIB failed. Check credentials.") ∧
  attempts_between env (perform Scenario.settings op env).2 = 1%nat.
Proof.
  intros env op. split; [reflexivity|].
  destruct (unauthorized_is_final Scenario.settings op env 0
              {| status_code := 401; content := EmptyString; json_value := None |})
    as (Hres & _ & Hn); [lia|intros i Hi; lia|reflexivity|reflexivity|].
  split; [exact Hres|exact Hn].
Defined.

(** What a successful exchange returns: what the body of the response
    decodes to, which is a mapping when the body is one, and [None] when the
    body is empty. *)
Theorem successful_exchange_payload settings op env j response :
  let req := request_of settings op in
  let res := perform settings op env in
  (j < 3)%nat →
  (∀ i, (i < j)%nat → retried (outcome_at env req i) = true) →
  outcome_at env req j = inr response →
  (200 ≤ status_code response ≤ 299)%Z →
  (content response = EmptyString → res.1 = inr PNone) ∧
  (content response ≠ EmptyString → res.1 = response_json response) ∧
  (∀ d, content response ≠ EmptyString → json_value response = Some (PDict d) →
        res.1 = inr (PDict d)).
Proof.
  intros req res Hj Hpre Hout H2xx.
  destruct (perform_settles settings op env j Hj Hpre) as (_ & _ & Hres).
  { left. fold req. by rewrite Hout. }
  fold req res in Hres. rewrite Hout, handle_response_success in Hres by done.
  rewrite Hres. repeat split.
  - intros Hc. by rewrite bool_decide_eq_false_2 by (by intros ?).
  - intros Hc. by rewrite bool_decide_eq_true_2.
  - intros d Hc Hd. rewrite bool_decide_eq_true_2 by done.
    unfold response_json. by rewrite Hd.
Qed.

Lemma successful_exchange_payload_witness :
  let env := Scenario.scripted [Scenario.refused; Scenario.ok_body] Scenario.refused 0 in
  let op := FetchEquipmentState "E1" in
  (outcome_at env (request_of Scenario.settings op) 0 = Scenario.refused ∧
   outcome_at env (request_of Scenario.settings op) 1 = Scenario.ok_body) ∧
  (perform Scenario.settings op env).1 = inr (PDict ∅).
Proof.
  intros env op. split; [split; reflexivity|].
  destruct (successful_exchange_payload Scenario.settings op env 1
              {| status_code := 200; content := "{}"; json_value := Some (PDict ∅) |})
    as (_ & _ & Hd); [lia| |reflexivity|cbn; lia|].
  { intros [|i] Hi; [reflexivity|lia]. }
  apply Hd; [discriminate|reflexivity].
Defined.

(** C5: the operations are declared to return a mapping and their callers
    use the result as one, but on a successful response with an empty body
    the code returns [None].  Here the equipment and the template endpoints
    answer 204 with no body to a GET that carries no payload: one attempt is
    made and the result is [None], which is no mapping. *)
Lemma empty_body_is_not_a_mapping :
  let env := Scenario.scripted [Scenario.no_content] Scenario.refused 0 in
  outcome_at env (request_of Scenario.settings (FetchEquipmentState "E1")) 0
    = Scenario.respond 204 EmptyString None ∧
  json (request_of Scenario.settings (FetchEquipmentState "E1")) = None ∧
  (fetch_equipment_state Scenario.settings "E1" env).1 = inr PNone ∧
  (fetch_batch_template Scenario.settings "R7" env).1 = inr PNone ∧
  length (calls (fetch_equipment_state Scenario.settings "E1" env).2) = 1%nat ∧
  is_mapping PNone = false.
Proof. vm_compute. repeat split. Qed.

(** C1, as the code has it: an operation makes a further attempt exactly
    after an attempt on which the transport raised an [httpx.HTTPError] while
    fewer than three attempts had been made.  Once a response is received, of
    whatever status, no attempt follows: an unauthorized response raises the
    authentication error, another response outside 2xx raises its status
    error at once, and a 2xx response is returned.  An exception of the last
    attempt is raised as it is. *)
Theorem retry_policy settings op env :
  let req := request_of settings op in
  let res := perform settings op env in
  ∃ n, (1 ≤ n ≤ 3)%nat ∧
    calls res.2 = calls env ++ replicate n req ∧
    (∀ i, (S i < n)%nat →
       ∃ e, outcome_at env req i = inl e ∧ isinstance_HTTPError e = true) ∧
    match outcome_at env req (n - 1) with
    | inl e => res.1 = inl e ∧ (isinstance_HTTPError e = true → n = 3%nat)
    | inr response =>
      res.1 =
        if bool_decide (status_code response = UNAUTHORIZED) then
          inl (QMIBAuthenticationError "Authentication to QMIB failed. Check credentials.")
        else if bool_decide (200 ≤ status_code response ≤ 299)%Z then
          if bool_decide (content response ≠ EmptyString) then response_json response
          else inr PNone
        else inl (HTTPStatusError (status_code response))
    end.
Proof.
  intros req res.
  destruct (perform_char settings op env) as (n & Hn & Hcalls & _ & _ & Hbefore & Hlast).
  fold req res in Hcalls, Hbefore, Hlast.
  exists n. repeat split; try done; try lia.
  destruct (outcome_at env req (n - 1)) as [e|response]; [done|].
  rewrite Hlast. case_bool_decide as H401.
  - by apply handle_response_unauthorized.
  - case_bool_decide as H2xx.
    + by apply handle_response_success.
    + by apply handle_response_error.
Qed.

(** C1, as it was stated, fails: a response with status 500 on the first
    attempt, with two attempts left and a remote system that would have
    answered the next one, makes the operation raise at once. *)
Lemma error_response_is_not_retried :
  let op := FetchEquipmentState "E1" in
  let env := Scenario.scripted [Scenario.server_error; Scenario.ok_body] Scenario.ok_body 0 in
  outcome_at env (request_of Scenario.settings op) 0
    = Scenario.respond 500 "Service Unavailable" None ∧
  (perform Scenario.settings op env).1 = inl (HTTPStatusError 500) ∧
  attempts_between env (perform Scenario.settings op env).2 = 1%nat ∧
  sleeps (perform Scenario.settings op env).2 = [].
Proof. vm_compute. repeat split. Qed.

End client_claims.

(** * The orchestrator, as specified *)
Section orchestrator_claims.
Import Models Config BatchService IntegrationService.

Implicit Types (w : World) (pk : string) (r : BatchRecord).

(** C2: for a record of the store, the orchestrator's transition to
    [COMPLETED] first commits the new status and [completed_at] to the store,
    then sends the record so written to the remote system, with at least one
    attempt.  Whatever the publication raises is what the call raises, and
    the store keeps the committed record: [get] still returns it, [COMPLETED]
    and with [completed_at] set. *)
Theorem completed_then_published settings w pk r :
  (get pk (store w)).1 = inr r →
  let now := QMIBClient.clock (env w) in
  let res := update_batch_status settings pk COMPLETED w in
  ∃ r',
    store res.2 = (update_status pk COMPLETED (Some now) (store w)).2 ∧
    (get pk (store res.2)).1 = inr r' ∧
    status r' = COMPLETED ∧ completed_at r' = Some now ∧
    started_at r' = started_at r ∧ same_content r r' ∧
    let pub := QMIBClient.publish_batch_record settings (BatchRecord_model_dump r') (env w) in
    env res.2 = pub.2 ∧
    (length (QMIBClient.calls (env w)) < length (QMIBClient.calls (env res.2)))%nat ∧
    (∀ e, pub.1 = inl e → res.1 = inl e) ∧
    (∀ v, pub.1 = inr v → res.1 = inr r').
Proof.
  intros Hr now res.
  destruct (update_status_record _ _ _ COMPLETED (Some now) Hr) as (row & _ & Hupd & Hget).
  exists (transition COMPLETED (Some now) r).
  subst res. rewrite (update_batch_status_completed settings w pk r Hr).
  fold now. cbn [fst snd store env]. rewrite Hupd; cbn [snd]. rewrite Hget; cbn [fst].
  repeat split; try done.
  - destruct (perform_char settings
                (QMIBClient.PublishBatchRecord
                   (BatchRecord_model_dump (transition COMPLETED (Some now) r))) (env w))
      as (n & Hn & Hcalls & _).
    cbn [QMIBClient.perform] in Hcalls. rewrite Hcalls, length_app, length_replicate. lia.
  - by intros e ->.
  - by intros v ->.
Qed.

Lemma completed_then_published_witness :
  let w := {| store := Scenario.table_B1;
              env := Scenario.scripted [] Scenario.refused 1700000360000000 |} in
  let res := update_batch_status Scenario.settings "B1" COMPLETED w in
  (get "B1" (store w)).1 = inr Scenario.batch_B1 ∧
  ∃ r', (get "B1" (store res.2)).1 = inr r' ∧
        status r' = COMPLETED ∧ completed_at r' = Some 1700000360000000%Z ∧
        res.1 = inl (ConnectError "connection refused").
Proof.
  intros w res. split; [vm_compute; reflexivity|].
  destruct (completed_then_published Scenario.settings w "B1" Scenario.batch_B1)
    as (r' & _ & Hget & Hst & Hdone & _ & (Hid & Hrid & Hdata & Heq) & _ & _ & Hraise & _);
    [vm_compute; reflexivity|].
  exists r'. split; [exact Hget|]. split; [exact Hst|]. split; [exact Hdone|].
  apply Hraise.
  assert (r' = transition COMPLETED (Some 1700000360000000%Z) Scenario.batch_B1) as ->.
  { assert (Hsome : (inr r' : exn + BatchRecord)
                    = inr (transition COMPLETED (Some 1700000360000000%Z) Scenario.batch_B1))
      by (rewrite <-Hget; vm_compute; reflexivity).
    by injection Hsome. }
  vm_compute; reflexivity.
Defined.

(** The failure scenario of section 8, run: every attempt is refused, the
    call raises the last refusal after three attempts, and the record is
    stored as completed. *)
Example publish_fails_record_stays_completed :
  let w := {| store := Scenario.table_B1;
              env := Scenario.scripted [] Scenario.refused 1700000360000000 |} in
  let res := update_batch_status Scenario.settings "B1" COMPLETED w in
  res.1 = inl (ConnectError "connection refused") ∧
  length (QMIBClient.calls (env res.2)) = 3%nat ∧
  (get "B1" (store res.2)).1
  = inr {| batch_id := "B1"; recipe_id := "R7"; status := COMPLETED;
           started_at := Some 1700000000000000%Z;
           completed_at := Some 1700000360000000%Z;
           data := {[ "temp" := SInt 72 ]}; equipment := ["E1"; "E2"] |}.
Proof. vm_compute. repeat split. Qed.

End orchestrator_claims.

(** * More on the record store *)
Section store_more.
Import Models BatchService.

Implicit Types (t : Table) (pk : string) (row : BatchRecordORM) (r : BatchRecord).

(** Writing the same identifier twice: the second record is what remains,
    exactly as if the first had never been written; in particular writing a
    record twice is writing it once. *)
Theorem upsert_last_write_wins t r1 r2 :
  batch_id r1 = batch_id r2 →
  (upsert_record r2 (upsert_record r1 t).2).2 = (upsert_record r2 t).2.
Proof.
  intros Hid. rewrite !upsert_record_eq; cbn [snd]. rewrite Hid.
  rewrite lookup_insert_eq; cbn [from_option to_orm orm_batch_id].
  by rewrite insert_insert_eq.
Qed.

Lemma upsert_last_write_wins_witness :
  batch_id Scenario.batch_B1 = batch_id Scenario.batch_B1_replanned ∧
  (upsert_record Scenario.batch_B1_replanned (upsert_record Scenario.batch_B1 ∅).2).2
  = (upsert_record Scenario.batch_B1_replanned ∅).2.
Proof.
  split; [reflexivity|].
  apply (upsert_last_write_wins ∅ Scenario.batch_B1 Scenario.batch_B1_replanned).
  reflexivity.
Defined.

(** The rows a write leaves: [update_status] neither adds nor removes one,
    [upsert_record] adds at most the one of its record; nothing is ever
    deleted. *)
Theorem writes_keep_rows t :
  (∀ pk status timestamp, dom (update_status pk status timestamp t).2 = dom t) ∧
  (∀ r, dom (upsert_record r t).2 = {[ batch_id r ]} ∪ dom t).
Proof.
  split.
  - intros pk status timestamp. destruct (t !! pk) as [row|] eqn:H.
    + rewrite (update_status_found _ _ _ _ _ H); cbn [snd].
      rewrite dom_insert_L. apply subseteq_union_1_L, singleton_subseteq_l.
      by apply (elem_of_dom_2 (D := gset string)) in H.
    + by rewrite (update_status_missing _ _ _ _ H).
  - intros r. rewrite upsert_record_eq; cbn [snd]. apply dom_insert_L.
Qed.

(** [HALTED] and [ABORTED] stamp [completed_at] as [COMPLETED] does;
    [PLANNED] stamps nothing even when a time stamp is given.  No transition
    is refused: the new status is written whatever the old one was. *)
Theorem update_status_other_targets t pk r status ts :
  (get pk t).1 = inr r →
  ∃ r', (update_status pk status (Some ts) t).1 = inr r' ∧
    (get pk (update_status pk status (Some ts) t).2).1 = inr r' ∧
    Models.status r' = status ∧ same_content r r' ∧
    (status = HALTED ∨ status = ABORTED →
       completed_at r' = Some ts ∧ started_at r' = started_at r) ∧
    (status = PLANNED →
       completed_at r' = completed_at r ∧ started_at r' = started_at r).
Proof.
  intros Hr.
  destruct (update_status_record _ _ _ status (Some ts) Hr) as (row & _ & Hupd & Hget).
  exists (transition status (Some ts) r). rewrite Hupd; cbn [fst snd]. rewrite Hget.
  split; [done|]. split; [done|]. split; [done|]. split; [done|].
  split; [intros [->| ->]; by split|]. intros ->; by split.
Qed.

Lemma update_status_other_targets_witness :
  (get "B1" Scenario.table_B1).1 = inr Scenario.batch_B1 ∧
  ∃ r', (get "B1" (update_status "B1" HALTED (Some 1700000360000000%Z) Scenario.table_B1).2).1
        = inr r' ∧
        Models.status r' = HALTED ∧ completed_at r' = Some 1700000360000000%Z ∧
        started_at r' = Some 1700000000000000%Z.
Proof.
  split; [vm_compute; reflexivity|].
  destruct (update_status_other_targets Scenario.table_B1 "B1" Scenario.batch_B1 HALTED
              1700000360000000%Z) as (r' & _ & Hget & Hst & _ & Hhalt & _);
    [vm_compute; reflexivity|].
  exists r'. split; [exact Hget|]. split; [exact Hst|].
  destruct (Hhalt (or_introl eq_refl)) as [Hc Hs]. split; [exact Hc|exact Hs].
Defined.

(** Two transitions in a row: started at [ts1] and completed at [ts2], the
    record carries both time stamps; completed at [ts1] and started again at
    [ts2], it is in progress with the new start and keeps the completion time
    of the earlier run. *)
Theorem update_status_twice t pk r ts1 ts2 :
  (get pk t).1 = inr r →
  let started := (update_status pk IN_PROGRESS (Some ts1) t).2 in
  let completed := (update_status pk COMPLETED (Some ts1) t).2 in
  (∃ r', (get pk (update_status pk COMPLETED (Some ts2) started).2).1 = inr r' ∧
         status r' = COMPLETED ∧ started_at r' = Some ts1 ∧ completed_at r' = Some ts2 ∧
         same_content r r') ∧
  (∃ r', (get pk (update_status pk IN_PROGRESS (Some ts2) completed).2).1 = inr r' ∧
         status r' = IN_PROGRESS ∧ started_at r' = Some ts2 ∧ completed_at r' = Some ts1 ∧
         same_content r r').
Proof.
  intros Hr started completed. split.
  - destruct (update_status_record _ _ _ IN_PROGRESS (Some ts1) Hr) as (row & _ & Hupd & Hget).
    assert (Hr1 : (get pk started).1 = inr (transition IN_PROGRESS (Some ts1) r))
      by (subst started; rewrite Hupd; cbn [snd]; by rewrite Hget).
    destruct (update_status_record _ _ _ COMPLETED (Some ts2) Hr1) as (row' & _ & Hupd' & Hget').
    eexists. rewrite Hupd'; cbn [snd]. rewrite Hget'. by repeat split.
  - destruct (update_status_record _ _ _ COMPLETED (Some ts1) Hr) as (row & _ & Hupd & Hget).
    assert (Hr1 : (get pk completed).1 = inr (transition COMPLETED (Some ts1) r))
      by (subst completed; rewrite Hupd; cbn [snd]; by rewrite Hget).
    destruct (update_status_record _ _ _ IN_PROGRESS (Some ts2) Hr1) as (row' & _ & Hupd' & Hget').
    eexists. rewrite Hupd'; cbn [snd]. rewrite Hget'. by repeat split.
Qed.

Lemma update_status_twice_witness :
  (get "B1" Scenario.table_B1).1 = inr Scenario.batch_B1 ∧
  ∃ r', (get "B1" (update_status "B1" IN_PROGRESS (Some 1700000720000000%Z)
                     (update_status "B1" COMPLETED (Some 1700000360000000%Z)
                        Scenario.table_B1).2).2).1 = inr r' ∧
        status r' = IN_PROGRESS ∧ started_at r' = Some 1700000720000000%Z ∧
        completed_at r' = Some 1700000360000000%Z.
Proof.
  split; [vm_compute; reflexivity|].
  destruct (update_status_twice Scenario.table_B1 "B1" Scenario.batch_B1
              1700000360000000%Z 1700000720000000%Z) as [_ (r' & Hget & Hst & Hs & Hc & _)];
    [vm_compute; reflexivity|].
  exists r'. split; [exact Hget|]. split; [exact Hst|]. split; [exact Hs|exact Hc].
Defined.

End store_more.

(** * Tables the service produces, and their listing *)
Section store_reachable.
Import Models BatchService.

Implicit Types (t : Table) (pk : string) (row : BatchRecordORM) (r : BatchRecord).

Lemma row_complete_to_model row : row_complete row → ∃ r, _to_model row = inr r.
Proof.
  intros [[rid Hrid] [st Hst]]. unfold _to_model. rewrite Hrid, Hst. by eexists.
Qed.

Lemma table_complete_insert t pk row :
  table_complete t → row_complete row → table_complete (<[pk := row]> t).
Proof.
  intros Ht Hrow k row' Hk. destruct (decide (pk = k)) as [<-|Hne].
  - rewrite lookup_insert_eq in Hk. by inversion Hk; subst.
  - rewrite lookup_insert_ne in Hk by done. by eapply Ht.
Qed.

Lemma upsert_record_complete t r : table_complete t → table_complete (upsert_record r t).2.
Proof.
  intros Ht. rewrite upsert_record_eq; cbn [snd].
  apply table_complete_insert; [done|]. split; by eexists.
Qed.

Lemma update_status_complete t pk status timestamp :
  table_complete t → table_complete (update_status pk status timestamp t).2.
Proof.
  intros Ht. destruct (t !! pk) as [row|] eqn:H.
  - rewrite (update_status_found _ _ _ _ _ H); cbn [snd].
    apply table_complete_insert; [done|].
    destruct (Ht _ _ H) as [Hrid _]. unfold stamped, row_complete.
    destruct (bool_decide _ && _), (is_terminal _ && _); cbn; by split; [|eexists].
  - by rewrite (update_status_missing _ _ _ _ H).
Qed.

Lemma reachable_invariant t : reachable t → table_wf t ∧ table_complete t.
Proof.
  induction 1 as [|t r _ [Hwf Hc]|t pk status timestamp _ [Hwf Hc]].
  - split; [apply table_wf_empty|]. intros pk row H. by rewrite lookup_empty in H.
  - split; [by apply upsert_record_wf|by apply upsert_record_complete].
  - split; [by apply update_status_wf|by apply update_status_complete].
Qed.

(** On a table the service has produced, [get] has two outcomes only: the
    not-found error for an identifier that is not stored, and otherwise a
    record that carries the identifier it was asked for.  It never fails to
    rebuild a record, and it never writes. *)
Theorem get_on_reachable t pk :
  reachable t →
  (t !! pk = None ∧ get pk t = (inl (not_found pk), t)) ∨
  (∃ r, get pk t = (inr r, t) ∧ batch_id r = pk).
Proof.
  intros [Hwf Hc]%reachable_invariant.
  destruct (t !! pk) as [row|] eqn:H.
  - right. destruct (row_complete_to_model row (Hc _ _ H)) as [r Hr].
    exists r. rewrite (get_found _ _ _ H), Hr. split; [done|].
    apply to_model_inr in Hr as (_ & _ & ->). cbn. by apply Hwf.
  - left. by rewrite (get_missing _ _ H).
Qed.

Lemma get_on_reachable_witness :
  reachable (update_status "B1" HALTED None (upsert_record Scenario.batch_B1 ∅).2).2 ∧
  ((update_status "B1" HALTED None (upsert_record Scenario.batch_B1 ∅).2).2 !! "B1" = None ∧
   get "B1" (update_status "B1" HALTED None (upsert_record Scenario.batch_B1 ∅).2).2
   = (inl (not_found "B1"),
      (update_status "B1" HALTED None (upsert_record Scenario.batch_B1 ∅).2).2) ∨
   ∃ r, get "B1" (update_status "B1" HALTED None (upsert_record Scenario.batch_B1 ∅).2).2
        = (inr r, (update_status "B1" HALTED None (upsert_record Scenario.batch_B1 ∅).2).2) ∧
        batch_id r = "B1").
Proof.
  assert (Hreach : reachable
            (update_status "B1" HALTED None (upsert_record Scenario.batch_B1 ∅).2).2)
    by (apply reachable_update, reachable_upsert, reachable_empty).
  split; [exact Hreach|].
  apply (get_on_reachable _ "B1" Hreach).
Defined.

(** *** [list_records] *)
Lemma try_map_inr {A B} (f : A → exn + B) xs ys :
  try_map f xs = inr ys ↔ Forall2 (λ x y, f x = inr y) xs ys.
Proof.
  revert ys. induction xs as [|x xs IH]; intros ys; cbn.
  - split; [intros [= <-]; constructor|by inversion 1].
  - destruct (f x) as [e|y] eqn:Hx.
    + split; [done|]. inversion 1; congruence.
    + destruct (try_map f xs) as [e|ys'] eqn:Hxs.
      * split; [done|]. inversion 1 as [|? y' ? ys'' _ Hrest]; subst.
        apply IH in Hrest. congruence.
      * split.
        -- intros [= <-]. constructor; [done|]. by apply IH.
        -- inversion 1 as [|? y' ? ys'' Hy Hrest]; subst.
           apply IH in Hrest. congruence.
Qed.

Lemma list_records_eq t :
  list_records t = (try_map _to_model (map_to_list t).*2, t).
Proof.
  unfold list_records, with_session, se_bind, session_query_all, lift_sum; cbn.
  by rewrite (left_id_L ∅ (∪)).
Qed.

Lemma try_map_rows_members t l :
  table_wf t →
  try_map _to_model (map_to_list t).*2 = inr l →
  length l = size t ∧ ∀ r, r ∈ l ↔ (get (batch_id r) t).1 = inr r.
Proof.
  intros Hwf Hall%try_map_inr. split.
  - apply Forall2_length in Hall as <-. by rewrite length_fmap, length_map_to_list.
  - intros r. rewrite get_inr. split.
    + intros (i & Hi)%list_elem_of_lookup.
      destruct (Forall2_lookup_r _ _ _ _ _ Hall Hi) as (row & Hrow & Hr).
      exists row. split; [|done].
      apply list_elem_of_lookup_2, list_elem_of_fmap in Hrow as ([k row'] & -> & Hin).
      apply elem_of_map_to_list in Hin. cbn in Hr |- *.
      apply to_model_inr in Hr as Hf. destruct Hf as (_ & _ & ->). cbn.
      by rewrite (Hwf _ _ Hin).
    + intros (row & Hrow & Hr).
      assert (Hin : row ∈ (map_to_list t).*2).
      { apply list_elem_of_fmap. exists (batch_id r, row). split; [done|].
        by apply elem_of_map_to_list. }
      apply list_elem_of_lookup in Hin as (i & Hi).
      destruct (Forall2_lookup_l _ _ _ _ _ Hall Hi) as (r' & Hr' & Hm).
      assert (r' = r) as -> by congruence.
      by apply list_elem_of_lookup_2 in Hr'.
Qed.

(** The listing and [get] agree: on a table whose rows are stored under
    their own identifiers, [list_records] writes nothing, and when it returns
    it returns one record for each row, a record being listed exactly when
    [get] on its identifier returns it. *)
Theorem list_records_agrees_with_get t :
  table_wf t →
  (list_records t).2 = t ∧
  ∀ l, (list_records t).1 = inr l →
    length l = size t ∧
    ∀ r, r ∈ l ↔ (get (batch_id r) t).1 = inr r.
Proof.
  intros Hwf. rewrite list_records_eq; cbn [fst snd]. split; [done|].
  intros l Hl. by apply try_map_rows_members.
Qed.

Lemma list_records_agrees_with_get_witness :
  table_wf Scenario.table_B1 ∧
  (list_records Scenario.table_B1).2 = Scenario.table_B1 ∧
  ∀ l, (list_records Scenario.table_B1).1 = inr l →
    length l = size Scenario.table_B1 ∧
    ∀ r, r ∈ l ↔ (get (batch_id r) Scenario.table_B1).1 = inr r.
Proof.
  assert (Hwf : table_wf Scenario.table_B1).
  { apply (bool_decide_unpack (map_Forall (λ pk row, orm_batch_id row = pk) Scenario.table_B1)).
    vm_compute; reflexivity. }
  split; [exact Hwf|].
  apply (list_records_agrees_with_get Scenario.table_B1 Hwf).
Defined.

(** On a table the service has produced, the listing never raises, and a
    record that has just been upserted is in it. *)
Theorem list_records_after_upsert t r :
  reachable t →
  ∃ l, (list_records (upsert_record r t).2).1 = inr l ∧ r ∈ l.
Proof.
  intros Hreach.
  destruct (reachable_invariant _ (reachable_upsert _ r Hreach)) as [Hwf Hc].
  destruct (reachable_invariant _ Hreach) as [Hwf0 _].
  assert (Hall : ∃ l, try_map _to_model (map_to_list (upsert_record r t).2).*2 = inr l).
  { assert (Hrows : Forall row_complete (map_to_list (upsert_record r t).2).*2).
    { apply list.Forall_forall. intros row ([k row'] & -> & Hin)%list_elem_of_fmap.
      apply elem_of_map_to_list in Hin. by eapply Hc. }
    induction Hrows as [|row rows Hrow _ [l Hl]]; [by eexists|].
    destruct (row_complete_to_model _ Hrow) as [r' Hr']. cbn. rewrite Hr', Hl. by eexists. }
  destruct Hall as [l Hl]. exists l.
  rewrite list_records_eq; cbn [fst].
  split; [done|]. apply (try_map_rows_members _ l Hwf Hl).
  rewrite upsert_record_eq; cbn [snd].
  rewrite (get_found _ _ _ (lookup_insert_eq _ _ _)); cbn [fst].
  destruct (t !! batch_id r) as [old|] eqn:Hold; cbn [from_option].
  - rewrite (Hwf0 _ _ Hold). apply to_model_to_orm.
  - apply to_model_to_orm.
Qed.

Lemma list_records_after_upsert_witness :
  reachable (upsert_record Scenario.batch_B1 ∅).2 ∧
  ∃ l, (list_records (upsert_record Scenario.batch_B1_replanned
                        (upsert_record Scenario.batch_B1 ∅).2).2).1 = inr l ∧
       Scenario.batch_B1_replanned ∈ l.
Proof.
  assert (Hreach : reachable (upsert_record Scenario.batch_B1 ∅).2)
    by apply reachable_upsert, reachable_empty.
  split; [exact Hreach|].
  apply (list_records_after_upsert _ Scenario.batch_B1_replanned Hreach).
Defined.

End store_reachable.

(** * More on the remote client *)
Section client_more.
Import Models Config QMIBClient.

Implicit Types (op : operation) (env : Env) (response : Response).

(** The back-off stays between its bounds whatever its parameters, and with
    the parameters of the client it doubles from one second up to eight. *)
Theorem wait_exponential_bounds multiplier min max attempt_number :
  (0 ≤ max)%Z → (min ≤ max)%Z →
  (min ≤ wait_exponential multiplier min max attempt_number ≤ max)%Z ∧
  (0 ≤ wait_exponential multiplier min max attempt_number)%Z ∧
  ((1 ≤ attempt_number ≤ 4)%nat →
     wait_exponential 1 1 8 attempt_number = (2 ^ (Z.of_nat attempt_number - 1))%Z) ∧
  ((4 ≤ attempt_number)%nat → wait_exponential 1 1 8 attempt_number = 8%Z).
Proof.
  intros Hmax Hmin. unfold wait_exponential. repeat split; try lia.
  - intros [H1 H4].
    assert (attempt_number = 1 ∨ attempt_number = 2 ∨ attempt_number = 3 ∨ attempt_number = 4)%nat
      as [->|[->|[->| ->]]] by lia; reflexivity.
  - intros H4.
    assert (2 ^ 3 ≤ 2 ^ (Z.of_nat attempt_number - 1))%Z
      by (apply Z.pow_le_mono_r; lia).
    change (2 ^ 3)%Z with 8%Z in *. lia.
Qed.

Lemma wait_exponential_bounds_witness :
  ((0 ≤ 8)%Z ∧ (1 ≤ 8)%Z) ∧ (1 ≤ wait_exponential 1 1 8 7 ≤ 8)%Z.
Proof.
  split; [lia|]. apply (wait_exponential_bounds 1 1 8 7); lia.
Defined.

(** An exception of the transport that is no [httpx.HTTPError], such as the
    one raised for a payload that cannot be serialised, ends the operation on
    the attempt that raised it: it is raised as it is and nothing is tried
    again. *)
Theorem other_exception_is_final settings op env j e :
  let req := request_of settings op in
  let res := perform settings op env in
  (j < 3)%nat →
  (∀ i, (i < j)%nat → retried (outcome_at env req i) = true) →
  outcome_at env req j = inl e →
  isinstance_HTTPError e = false →
  res.1 = inl e ∧
  calls res.2 = calls env ++ replicate (S j) req ∧
  sleeps res.2 = sleeps env ++ (wait_exponential 1 1 8 <$> seq 1 j).
Proof.
  intros req res Hj Hpre Hout Hcls.
  destruct (perform_settles settings op env j Hj Hpre) as (Hcalls & Hsl & Hres).
  { left. fold req. rewrite Hout. exact Hcls. }
  fold req res in Hcalls, Hsl, Hres. rewrite Hout in Hres. by repeat split.
Qed.

Lemma other_exception_is_final_witness :
  let env := Scenario.scripted [inl (TypeError "Object of type datetime is not JSON serializable")]
               Scenario.ok_body 0 in
  let op := PublishBatchRecord (BatchRecord_model_dump Scenario.batch_B1) in
  outcome_at env (request_of Scenario.settings op) 0
    = inl (TypeError "Object of type datetime is not JSON serializable") ∧
  (perform Scenario.settings op env).1
    = inl (TypeError "Object of type datetime is not JSON serializable") ∧
  calls (perform Scenario.settings op env).2 = [request_of Scenario.settings op].
Proof.
  intros env op. split; [reflexivity|].
  destruct (other_exception_is_final Scenario.settings op env 0
              (TypeError "Object of type datetime is not JSON serializable"))
    as (Hres & Hcalls & _); [lia|intros i Hi; lia|reflexivity|reflexivity|].
  split; [exact Hres|exact Hcalls].
Defined.

(** Every operation is bounded: between one and three attempts, all with the
    request of the operation and added at the end of the log; a wait of one
    second after the first attempt and of two after the second and no other,
    so never more than three seconds of waiting between attempts; the remote
    system itself is left as it was. *)
Theorem operation_is_bounded settings op env :
  let req := request_of settings op in
  let res := perform settings op env in
  transport res.2 = transport env ∧
  ∃ n, (1 ≤ n ≤ 3)%nat ∧
    calls res.2 = calls env ++ replicate n req ∧
    sleeps res.2 = sleeps env ++ take (n - 1) [1; 2]%Z ∧
    (0 ≤ total_sleep (take (n - 1) [1; 2]) ≤ 3)%Z.
Proof.
  intros req res.
  destruct (perform_char settings op env) as (n & Hn & Hcalls & Htr & Hsl & _).
  fold req res in Hcalls, Htr, Hsl.
  split; [done|]. exists n. split; [done|]. split; [done|].
  assert (Hwaits : wait_exponential 1 1 8 <$> seq 1 (n - 1) = take (n - 1) [1; 2]%Z).
  { assert (n = 1 ∨ n = 2 ∨ n = 3)%nat as [->|[->| ->]] by lia; reflexivity. }
  rewrite Hwaits in Hsl. split; [done|].
  assert (n = 1 ∨ n = 2 ∨ n = 3)%nat as [->|[->| ->]] by lia; cbn; lia.
Qed.

End client_more.

(** * More on the orchestration *)
Section orchestrator_more.
Import Models Config BatchService IntegrationService.

Implicit Types (w : World) (pk : string) (r : BatchRecord).

(** Only [COMPLETED] reaches the remote system: a transition to any other
    status is the store's own [update_status] with the clock as time stamp,
    and the outside world is left as it was, also when the call fails. *)
Theorem local_transitions_stay_local settings w pk status :
  status ≠ COMPLETED →
  let res := update_batch_status settings pk status w in
  env res.2 = env w ∧
  res.1 = (update_status pk status (Some (QMIBClient.clock (env w))) (store w)).1 ∧
  store res.2 = (update_status pk status (Some (QMIBClient.clock (env w))) (store w)).2.
Proof.
  intros Hne res. subst res. by rewrite (update_batch_status_local settings w pk status Hne).
Qed.

Lemma local_transitions_stay_local_witness :
  let w := {| store := Scenario.table_B1;
              env := Scenario.scripted [] Scenario.refused 1700000360000000 |} in
  ABORTED ≠ COMPLETED ∧
  env (update_batch_status Scenario.settings "B1" ABORTED w).2 = env w.
Proof.
  intros w. split; [discriminate|].
  apply (local_transitions_stay_local Scenario.settings w "B1" ABORTED). discriminate.
Defined.

(** Publishing is guarded: for a record that is not [COMPLETED] the call
    raises the value error, for an identifier that [get] does not return it
    raises what [get] raised; in both cases nothing is sent and nothing is
    written. *)
Theorem publish_requires_completed settings w pk :
  (∀ r, (get pk (store w)).1 = inr r → status r ≠ COMPLETED) →
  publish_batch_completion settings pk w
  = (match (get pk (store w)).1 with
     | inl e => inl e
     | inr _ => inl (ValueError "Only completed batch records can be published to QMIB")
     end, w).
Proof.
  intros Hguard. unfold publish_batch_completion, se_bind, on_store.
  pose proof (get_pure (store w) pk) as Hpure.
  destruct (get pk (store w)) as [[e|r] t']; cbn in Hguard, Hpure; subst t'.
  - by rewrite world_eta.
  - rewrite bool_decide_eq_true_2 by (by apply Hguard). unfold raise. by rewrite world_eta.
Qed.

Lemma publish_requires_completed_witness :
  let w := {| store := Scenario.table_B1;
              env := Scenario.scripted [] Scenario.ok_body 1700000360000000 |} in
  (∀ r, (get "B1" (store w)).1 = inr r → status r ≠ COMPLETED) ∧
  publish_batch_completion Scenario.settings "B1" w
  = (inl (ValueError "Only completed batch records can be published to QMIB"), w).
Proof.
  intros w.
  assert (Hguard : ∀ r, (get "B1" (store w)).1 = inr r → status r ≠ COMPLETED).
  { intros r Hr.
    assert (Hb : (inr r : exn + BatchRecord) = inr Scenario.batch_B1)
      by (rewrite <-Hr; vm_compute; reflexivity).
    injection Hb as ->. discriminate. }
  split; [exact Hguard|].
  etrans; [apply (publish_requires_completed Scenario.settings w "B1" Hguard)|].
  vm_compute; reflexivity.
Defined.

(** What goes on the wire for a completed batch: every request made by the
    transition to [COMPLETED] is a POST to [/batches] whose body is the whole
    record as just committed, with its identifier, the status value
    ["completed"], the completion time as a [datetime] value, and the
    equipment list in its order. *)
Theorem published_payload settings w pk r :
  (get pk (store w)).1 = inr r →
  let now := QMIBClient.clock (env w) in
  let res := update_batch_status settings pk COMPLETED w in
  ∃ n payload, (1 ≤ n ≤ 3)%nat ∧
    QMIBClient.calls (env res.2)
    = QMIBClient.calls (env w)
      ++ replicate n (QMIBClient.build_request settings "POST" "/batches" (Some (PDict payload))) ∧
    payload !! "batch_id" = Some (PStr (batch_id r)) ∧
    payload !! "recipe_id" = Some (PStr (recipe_id r)) ∧
    payload !! "status" = Some (PStr "completed") ∧
    payload !! "started_at" = Some (datetime_dump (started_at r)) ∧
    payload !! "completed_at" = Some (PDatetime now) ∧
    payload !! "data" = Some (PDict (scalar_dump <$> data r)) ∧
    payload !! "equipment" = Some (PList (PStr <$> equipment r)).
Proof.
  intros Hr now res. subst res.
  rewrite (update_batch_status_completed settings w pk r Hr). fold now. cbn [snd env].
  destruct (perform_char settings
              (QMIBClient.PublishBatchRecord
                 (BatchRecord_model_dump (transition COMPLETED (Some now) r))) (env w))
    as (n & Hn & Hcalls & _).
  exists n, (BatchRecord_model_dump (transition COMPLETED (Some now) r)).
  split; [done|]. split; [exact Hcalls|].
  by repeat split.
Qed.

Lemma published_payload_witness :
  let w := {| store := Scenario.table_B1;
              env := Scenario.scripted [] Scenario.ok_body 1700000360000000 |} in
  (get "B1" (store w)).1 = inr Scenario.batch_B1 ∧
  ∃ n payload, (1 ≤ n ≤ 3)%nat ∧
    QMIBClient.calls (env (update_batch_status Scenario.settings "B1" COMPLETED w).2)
    = replicate n (QMIBClient.build_request Scenario.settings "POST" "/batches"
                     (Some (PDict payload))) ∧
    payload !! "completed_at" = Some (PDatetime 1700000360000000) ∧
    payload !! "equipment" = Some (PList [PStr "E1"; PStr "E2"]).
Proof.
  intros w. split; [vm_compute; reflexivity|].
  destruct (published_payload Scenario.settings w "B1" Scenario.batch_B1)
    as (n & payload & Hn & Hcalls & _ & _ & _ & _ & Hdone & _ & Heq);
    [vm_compute; reflexivity|].
  exists n, payload. split; [exact Hn|]. split; [exact Hcalls|].
  split; [exact Hdone|exact Heq].
Defined.

(** A batch started and later completed through the orchestrator is stored
    with both time stamps, each the clock of its own call, whatever happened
    outside between the two calls and whatever the remote system answered to
    the publication. *)
Theorem started_then_completed settings w pk r later :
  (get pk (store w)).1 = inr r →
  let w1 := (update_batch_status settings pk IN_PROGRESS w).2 in
  let w2 := (update_batch_status settings pk COMPLETED
               {| store := store w1; env := later |}).2 in
  ∃ r', (get pk (store w2)).1 = inr r' ∧
    status r' = COMPLETED ∧
    started_at r' = Some (QMIBClient.clock (env w)) ∧
    completed_at r' = Some (QMIBClient.clock later) ∧
    same_content r r'.
Proof.
  intros Hr w1 w2.
  set (now := QMIBClient.clock (env w)).
  destruct (update_status_record _ _ _ IN_PROGRESS (Some now) Hr) as (row & _ & Hupd & Hget).
  assert (Hw1 : store w1 = (update_status pk IN_PROGRESS (Some now) (store w)).2)
    by (subst w1; by rewrite update_batch_status_local).
  assert (Hr1 : (get pk (store {| store := store w1; env := later |})).1
                = inr (transition IN_PROGRESS (Some now) r))
    by (cbn [store]; rewrite Hw1, Hupd; cbn [snd]; by rewrite Hget).
  assert (Hst : store w2
                = (update_status pk COMPLETED (Some (QMIBClient.clock later)) (store w1)).2)
    by (subst w2; by rewrite (update_batch_status_completed settings _ pk _ Hr1)).
  cbn [store] in Hr1.
  destruct (update_status_record _ _ _ COMPLETED (Some (QMIBClient.clock later)) Hr1)
    as (row' & _ & Hupd' & Hget').
  rewrite Hst, Hupd'; cbn [snd]. rewrite Hget'; cbn [fst].
  eexists. split; [done|]. by repeat split.
Qed.

Lemma started_then_completed_witness :
  let w := {| store := (upsert_record Scenario.batch_B1_replanned ∅).2;
              env := Scenario.scripted [] Scenario.timed_out 1700000360000000 |} in
  let later := Scenario.scripted [] Scenario.timed_out 1700000720000000 in
  (get "B1" (store w)).1 = inr Scenario.batch_B1_replanned ∧
  ∃ r',
    (get "B1" (store (update_batch_status Scenario.settings "B1" COMPLETED
                        {| store := store (update_batch_status Scenario.settings "B1"
                                             IN_PROGRESS w).2;
                           env := later |}).2)).1
    = inr r' ∧
    status r' = COMPLETED ∧ started_at r' = Some 1700000360000000%Z ∧
    completed_at r' = Some 1700000720000000%Z.
Proof.
  intros w later. split; [vm_compute; reflexivity|].
  destruct (started_then_completed Scenario.settings w "B1" Scenario.batch_B1_replanned later)
    as (r' & Hget & Hst & Hs & Hc & _); [vm_compute; reflexivity|].
  exists r'. split; [exact Hget|]. split; [exact Hst|]. split; [exact Hs|exact Hc].
Defined.

End orchestrator_more.

(** * Creating a batch from a template *)
Section template_more.
Import Models Config BatchService IntegrationService.

Implicit Types (w : World) (r : BatchRecord) (template : gmap string pyval).

(** What validation accepts is what a dump produces. *)
Lemma validate_str_Some v s : validate_str v = Some s → v = PStr s.
Proof. destruct v; cbn; congruence. Qed.

Lemma validate_scalar_Some v x : validate_scalar v = Some x → v = scalar_dump x.
Proof. destruct v; cbn; intros [= <-]; done. Qed.

Lemma validate_data_Some v d : validate_data v = Some d → v = PDict (scalar_dump <$> d).
Proof.
  destruct v as [| | | | | | |m]; cbn; try done.
  case_bool_decide as Hall; [|done]. intros [= <-]. f_equal.
  apply map_eq; intros k. rewrite lookup_fmap, lookup_omap.
  destruct (m !! k) as [x|] eqn:Hk; cbn; [|done].
  destruct (Hall _ _ Hk) as [y Hy]. rewrite Hy; cbn.
  by rewrite (validate_scalar_Some _ _ Hy).
Qed.

Lemma validate_equipment_Some v l : validate_equipment v = Some l → v = PList (PStr <$> l).
Proof.
  destruct v as [| | | | | |vs|]; cbn; try done. intros H. f_equal.
  revert l H. induction vs as [|x vs IH]; intros l; cbn.
  - by intros [= <-].
  - destruct (validate_str x) as [s|] eqn:Hx; cbn; [|done].
    destruct (mapM validate_str vs) as [l'|] eqn:Hvs; cbn; [|done].
    intros [= <-]. cbn. by rewrite (validate_str_Some _ _ Hx), (IH l').
Qed.

Lemma record_from_template_inr template batch_id r :
  record_from_template template batch_id = inr r →
  Models.batch_id r = batch_id ∧ status r = PLANNED ∧
  started_at r = None ∧ completed_at r = None ∧
  (template !! "id" = Some (PStr (recipe_id r)) ∨
   template !! "id" = None ∧ recipe_id r = "unknown-recipe") ∧
  (template !! "defaultData" = Some (PDict (scalar_dump <$> data r)) ∨
   template !! "defaultData" = None ∧ data r = ∅) ∧
  (template !! "equipment" = Some (PList (PStr <$> equipment r)) ∨
   template !! "equipment" = None ∧ equipment r = []).
Proof.
  unfold record_from_template, BatchRecord_init.
  destruct (validate_str _) as [s|] eqn:Hs;
  destruct (validate_data _) as [d|] eqn:Hd;
  destruct (validate_equipment _) as [l|] eqn:Hl; try done.
  intros [= <-]. cbn. split; [done|]. split; [done|]. split; [done|]. split; [done|].
  apply validate_str_Some in Hs. apply validate_data_Some in Hd.
  apply validate_equipment_Some in Hl.
  split; [|split].
  - destruct (template !! "id") as [v|]; cbn in Hs; [left; by subst|right].
    split; [done|]. by injection Hs as <-.
  - destruct (template !! "defaultData") as [v|]; cbn in Hd; [left; by subst|right].
    split; [done|]. injection Hd as Hd. apply map_eq; intros k.
    apply (f_equal (λ m, m !! k)) in Hd. rewrite lookup_fmap, !lookup_empty in *.
    by destruct (d !! k).
  - destruct (template !! "equipment") as [v|]; cbn in Hl; [left; by subst|right].
    split; [done|]. injection Hl as Hl. by destruct l.
Qed.

(** The adapter either raises a validation error that names a field, or
    returns; and when it returns, each of the three keys of the template was
    absent or of its declared type, and the record is built from them: the
    identifier is the one given, the status [PLANNED], no time stamp. *)
Theorem record_from_template_sound template batch_id :
  match record_from_template template batch_id with
  | inl e => ∃ fields, e = ValidationError fields ∧ fields ≠ []
  | inr r =>
    Models.batch_id r = batch_id ∧ status r = PLANNED ∧
    started_at r = None ∧ completed_at r = None ∧
    (template !! "id" = Some (PStr (recipe_id r)) ∨
     template !! "id" = None ∧ recipe_id r = "unknown-recipe") ∧
    (template !! "defaultData" = Some (PDict (scalar_dump <$> data r)) ∨
     template !! "defaultData" = None ∧ data r = ∅) ∧
    (template !! "equipment" = Some (PList (PStr <$> equipment r)) ∨
     template !! "equipment" = None ∧ equipment r = [])
  end.
Proof.
  destruct (record_from_template template batch_id) as [e|r] eqn:Hr.
  - revert Hr. unfold record_from_template, BatchRecord_init.
    destruct (validate_str _), (validate_data _), (validate_equipment _);
      intros [= <-]; eexists; (split; [reflexivity|discriminate]).
  - by apply record_from_template_inr.
Qed.

(** Keys other than [id], [defaultData] and [equipment] are not read. *)
Theorem record_from_template_ignores_other_keys template batch_id key value :
  key ≠ "id" → key ≠ "defaultData" → key ≠ "equipment" →
  record_from_template (<[key := value]> template) batch_id
  = record_from_template template batch_id.
Proof.
  intros H1 H2 H3. unfold record_from_template.
  by rewrite !lookup_insert_ne.
Qed.

Lemma record_from_template_ignores_other_keys_witness :
  ("name" ≠ "id" ∧ "name" ≠ "defaultData" ∧ "name" ≠ "equipment") ∧
  record_from_template (<["name" := PStr "Granulation"]> Scenario.template_R7) "B100"
  = record_from_template Scenario.template_R7 "B100".
Proof.
  split; [repeat split; discriminate|].
  apply (record_from_template_ignores_other_keys Scenario.template_R7 "B100"
           "name" (PStr "Granulation")); discriminate.
Defined.

(** The steps of [synchronize_batch_from_template], one after the other. *)
Lemma synchronize_steps settings template_id batch_id w :
  synchronize_batch_from_template settings template_id batch_id w =
  let fetched := QMIBClient.fetch_batch_template settings template_id (env w) in
  let kept := {| store := store w; env := fetched.2 |} in
  match fetched.1 with
  | inl e => (inl e, kept)
  | inr v =>
    match as_mapping v with
    | inl e => (inl e, kept)
    | inr template =>
      match record_from_template template batch_id with
      | inl e => (inl e, kept)
      | inr record =>
        (inr record, {| store := (upsert_record record (store w)).2; env := fetched.2 |})
      end
    end
  end.
Proof.
  unfold synchronize_batch_from_template, se_bind, on_env, on_store, lift_sum.
  destruct (QMIBClient.fetch_batch_template _ _ _) as [[e|v] env'];
    cbn [fst snd env store]; [done|].
  destruct (as_mapping v) as [e|template]; cbn [fst snd env store]; [done|].
  destruct (record_from_template template batch_id) as [e|record];
    cbn [fst snd env store]; [done|].
  by rewrite upsert_record_eq.
Qed.

(** Creating from a template writes only when it succeeds: whenever the call
    raises, because the fetch failed, because the body was no mapping or
    because the template was rejected, the store is as it was.  The outside
    world is in every case the one the fetch left. *)
Theorem synchronize_failure_writes_nothing settings template_id batch_id w :
  let fetched := QMIBClient.fetch_batch_template settings template_id (env w) in
  let res := synchronize_batch_from_template settings template_id batch_id w in
  env res.2 = fetched.2 ∧
  (∀ e, fetched.1 = inl e → res.1 = inl e) ∧
  (∀ e, res.1 = inl e → store res.2 = store w).
Proof.
  intros fetched res. subst res. rewrite synchronize_steps. fold fetched.
  cbv zeta. destruct (fetched.1) as [e|v];
    [split; [done|]; split; [by intros e0 [= <-]|by intros]|].
  destruct (as_mapping v) as [e|template];
    [split; [done|]; split; [done|]; by intros|].
  destruct (record_from_template template batch_id) as [e|record];
    [split; [done|]; split; [done|]; by intros|].
  split; [done|]. split; by intros.
Qed.

(** A template that is fetched and accepted becomes the stored record of the
    identifier: the call returns it, [get] returns it afterwards, planned and
    without time stamps, in place of whatever was stored under the identifier
    before; no other row changes. *)
Theorem synchronize_stores_the_record settings template_id batch_id w template env' record :
  table_wf (store w) →
  QMIBClient.fetch_batch_template settings template_id (env w) = (inr (PDict template), env') →
  record_from_template template batch_id = inr record →
  let res := synchronize_batch_from_template settings template_id batch_id w in
  res.1 = inr record ∧ env res.2 = env' ∧
  get batch_id (store res.2) = (inr record, store res.2) ∧
  status record = PLANNED ∧ started_at record = None ∧ completed_at record = None ∧
  (∀ k, k ≠ batch_id → store res.2 !! k = store w !! k).
Proof.
  intros Hwf Hfetch Hrecord res. subst res.
  destruct (record_from_template_inr _ _ _ Hrecord) as (<- & Hst & Hs & Hc & _).
  rewrite synchronize_steps, Hfetch; cbn [as_mapping fst snd env store]. rewrite Hrecord.
  rewrite upsert_record_eq; cbn [fst snd env store].
  split; [done|]. split; [done|]. split; [|split; [done|]; split; [done|]; split; [done|]].
  - rewrite (get_found _ _ _ (lookup_insert_eq _ _ _)). f_equal.
    destruct (store w !! Models.batch_id record) as [old|] eqn:Hold; cbn [from_option].
    + rewrite (Hwf _ _ Hold). apply to_model_to_orm.
    + apply to_model_to_orm.
  - intros k Hk. by rewrite lookup_insert_ne.
Qed.

Lemma synchronize_stores_the_record_witness :
  let w := {| store := Scenario.table_B1;
              env := Scenario.scripted
                       [Scenario.respond 200 "{..}" (Some (PDict Scenario.template_R7))]
                       Scenario.refused 0 |} in
  let res := synchronize_batch_from_template Scenario.settings "R7" "B1" w in
  table_wf (store w) ∧
  (QMIBClient.fetch_batch_template Scenario.settings "R7" (env w)).1
    = inr (PDict Scenario.template_R7) ∧
  get "B1" (store res.2)
  = (inr {| batch_id := "B1"; recipe_id := "R7"; status := PLANNED;
            started_at := None; completed_at := None;
            data := {[ "temp" := SInt 72 ]}; equipment := ["E1"; "E2"] |}, store res.2).
Proof.
  intros w res.
  assert (Hwf : table_wf (store w)).
  { apply (bool_decide_unpack (map_Forall (λ pk row, orm_batch_id row = pk) Scenario.table_B1)).
    vm_compute; reflexivity. }
  split; [exact Hwf|]. split; [vm_compute; reflexivity|].
  destruct (synchronize_stores_the_record Scenario.settings "R7" "B1" w Scenario.template_R7
              (QMIBClient.fetch_batch_template Scenario.settings "R7" (env w)).2
              {| batch_id := "B1"; recipe_id := "R7"; status := PLANNED;
                 started_at := None; completed_at := None;
                 data := {[ "temp" := SInt 72 ]}; equipment := ["E1"; "E2"] |} Hwf)
    as (_ & _ & Hget & _); [vm_compute; reflexivity|vm_compute; reflexivity|].
  exact Hget.
Defined.

(** A template endpoint that answers successfully with an empty body: the
    client returns [None], on which the adapter's lookup fails; the call
    raises an attribute error and stores nothing. *)
Theorem synchronize_empty_body settings template_id batch_id w response :
  QMIBClient.outcome_at (env w)
    (QMIBClient.request_of settings (QMIBClient.FetchBatchTemplate template_id)) 0
  = inr response →
  (200 ≤ QMIBClient.status_code response ≤ 299)%Z →
  QMIBClient.content response = EmptyString →
  let res := synchronize_batch_from_template settings template_id batch_id w in
  res.1 = inl (AttributeError "'NoneType' object has no attribute 'get'") ∧
  store res.2 = store w.
Proof.
  intros Hout H2xx Hempty res.
  destruct (perform_settles settings (QMIBClient.FetchBatchTemplate template_id) (env w) 0)
    as (_ & _ & Hres); [lia|intros i Hi; lia|left; by rewrite Hout|].
  rewrite Hout, handle_response_success in Hres by done.
  rewrite bool_decide_eq_false_2 in Hres by (rewrite Hempty; by intros ?).
  cbn [QMIBClient.perform] in Hres.
  subst res. rewrite synchronize_steps. cbv zeta. by rewrite Hres.
Qed.

Lemma synchronize_empty_body_witness :
  let w := {| store := Scenario.table_B1;
              env := Scenario.scripted [Scenario.no_content] Scenario.refused 0 |} in
  QMIBClient.outcome_at (env w)
    (QMIBClient.request_of Scenario.settings (QMIBClient.FetchBatchTemplate "R7")) 0
  = Scenario.no_content ∧
  (synchronize_batch_from_template Scenario.settings "R7" "B9" w).1
  = inl (AttributeError "'NoneType' object has no attribute 'get'") ∧
  store (synchronize_batch_from_template Scenario.settings "R7" "B9" w).2 = Scenario.table_B1.
Proof.
  intros w. split; [reflexivity|].
  apply (synchronize_empty_body Scenario.settings "R7" "B9" w
           {| QMIBClient.status_code := 204; QMIBClient.content := EmptyString;
              QMIBClient.json_value := None |}); [reflexivity|cbn; lia|reflexivity].
Defined.

End template_more.

(** * The status route *)
Section routes.
Import Models Config BatchService IntegrationService.

Context (str : exn → string).

Implicit Types (w : World) (pk : string) (r : BatchRecord).

(** An identifier the store does not know gives a 404 whose detail is the
    text of the not-found error; nothing is written and nothing is sent. *)
Theorem route_not_found_is_404 settings w pk status :
  store w !! pk = None →
  Routes.update_status str settings pk status w
  = (inl (Routes.HTTPException 404 (str (not_found pk))), w).
Proof.
  intros H. unfold Routes.update_status.
  by rewrite (update_batch_status_missing settings w pk status H).
Qed.

(** The route changes nothing of what the service did: the world it leaves
    is the service's, a record it returns is the one the service returned,
    and its only HTTP error is a 404, raised exactly when the service raised a
    [KeyError]. *)
Theorem route_follows_service settings w pk status :
  let svc := update_batch_status settings pk status w in
  let res := Routes.update_status str settings pk status w in
  res.2 = svc.2 ∧
  (∀ r, res.1 = inr r ↔ svc.1 = inr r) ∧
  (∀ code detail, res.1 = inl (Routes.HTTPException code detail) ↔
     code = 404%Z ∧ ∃ msg, svc.1 = inl (KeyError msg) ∧ detail = str (KeyError msg)).
Proof.
  intros svc res. subst res. unfold Routes.update_status. fold svc.
  destruct svc as [[e|r] w']; cbn [fst snd].
  - split; [by destruct e|]. split.
    + intros r. split; [by destruct e|intros [=]].
    + intros code detail. split.
      * destruct e; intros [=]; subst. split; [done|]. by eexists.
      * by intros (-> & msg & [= ->] & ->).
  - split; [done|]. split.
    + intros r'; split; intros [= <-]; done.
    + intros code detail; split; [intros [=]|intros (_ & msg & [=] & _)].
Qed.

(** A publication that fails is not turned into a 404: the exception passes
    through the route as it is, and the batch is stored as completed. *)
Theorem route_publish_failure_passes settings w pk r e :
  (get pk (store w)).1 = inr r →
  let now := QMIBClient.clock (env w) in
  let r' := transition COMPLETED (Some now) r in
  (QMIBClient.publish_batch_record settings (BatchRecord_model_dump r') (env w)).1 = inl e →
  (∀ msg, e ≠ KeyError msg) →
  let res := Routes.update_status str settings pk COMPLETED w in
  res.1 = inl (Routes.Unhandled e) ∧
  (get pk (store res.2)).1 = inr r' ∧
  status r' = COMPLETED ∧ completed_at r' = Some now.
Proof.
  intros Hr now r' Hpub Hne res. subst res. unfold Routes.update_status.
  rewrite (update_batch_status_completed settings w pk r Hr). fold now r'.
  rewrite Hpub.
  destruct (update_status_record _ _ _ COMPLETED (Some now) Hr) as (row & _ & Hupd & Hget).
  assert (Hstore : (get pk (update_status pk COMPLETED (Some now) (store w)).2).1 = inr r')
    by (rewrite Hupd; cbn [snd]; by rewrite Hget).
  destruct e; cbn [fst snd store]; try (split; [done|]; split; [exact Hstore|done]).
  by destruct (Hne msg).
Qed.

End routes.

Lemma route_not_found_is_404_witness :
  let w := {| IntegrationService.store := Scenario.table_B1;
              IntegrationService.env := Scenario.scripted [] Scenario.refused 0 |} in
  Scenario.table_B1 !! "B2" = None ∧
  (Routes.update_status (λ _, "KeyError") Scenario.settings "B2" Models.COMPLETED w).1
  = inl (Routes.HTTPException 404 "KeyError").
Proof.
  intros w. split; [vm_compute; reflexivity|].
  assert (H : IntegrationService.store w !! "B2" = None) by (vm_compute; reflexivity).
  by rewrite (route_not_found_is_404 (λ _, "KeyError") Scenario.settings
                w "B2" Models.COMPLETED H).
Defined.

Lemma route_publish_failure_passes_witness :
  let w := {| IntegrationService.store := Scenario.table_B1;
              IntegrationService.env := Scenario.scripted [] Scenario.refused 1700000360000000 |} in
  (BatchService.get "B1" (IntegrationService.store w)).1 = inr Scenario.batch_B1 ∧
  (Routes.update_status (λ _, "KeyError") Scenario.settings "B1" Models.COMPLETED w).1
  = inl (Routes.Unhandled (ConnectError "connection refused")).
Proof.
  intros w. split; [vm_compute; reflexivity|].
  apply (route_publish_failure_passes (λ _, "KeyError") Scenario.settings w "B1"
           Scenario.batch_B1 (ConnectError "connection refused"));
    [vm_compute; reflexivity|vm_compute; reflexivity|discriminate].
Defined.
